(** * Shallow embedding of the ash_renderer resource and frame-submission core

    Vulkan handles are modelled as [Z], 32-bit flag words ([VkFlags], [u32])
    as [Z] bitmasks, and the device calls the code issues as a trace of
    [vk_call] events.  Rust panics ([unwrap], [expect], [assert!], out-of-range
    slicing) are the [Panic] outcome of the [Rust] result type. *)

From Stdlib Require Import ZArith List Bool Lia String.
Import ListNotations.
Open Scope Z_scope.

(** ** Rust outcomes *)

Inductive Rust (A : Type) : Type :=
| Ret (a : A)
| Panic (msg : string).
Arguments Ret {A} a.
Arguments Panic {A} msg.

Definition is_panic {A} (r : Rust A) : bool :=
  match r with Panic _ => true | Ret _ => false end.

Definition u32_max : Z := 4294967295.

Definition is_u32 (x : Z) : Prop := 0 <= x <= u32_max.

(** ** Vulkan constants used by the code (values from the Vulkan headers) *)

Module Vk.
  (* VkMemoryPropertyFlagBits *)
Definition MEMORY_PROPERTY_DEVICE_LOCAL : Z := 1.
Definition MEMORY_PROPERTY_HOST_VISIBLE : Z := 2.
Definition MEMORY_PROPERTY_HOST_COHERENT : Z := 4.
  (* VkBufferUsageFlagBits *)
Definition BUFFER_USAGE_TRANSFER_SRC : Z := 1.
Definition BUFFER_USAGE_TRANSFER_DST : Z := 2.
Definition BUFFER_USAGE_UNIFORM_BUFFER : Z := 16.
Definition BUFFER_USAGE_VERTEX_BUFFER : Z := 128.
  (* VkCommandBufferUsageFlagBits / VkCommandBufferResetFlagBits *)
Definition COMMAND_BUFFER_USAGE_ONE_TIME_SUBMIT : Z := 1.
Definition COMMAND_BUFFER_RESET_RELEASE_RESOURCES : Z := 1.
  (* VkPipelineStageFlagBits *)
Definition PIPELINE_STAGE_COLOR_ATTACHMENT_OUTPUT : Z := 1024.
  (* VkShaderStageFlagBits *)
Definition SHADER_STAGE_VERTEX : Z := 1.
  (* VkDescriptorType *)
Definition DESCRIPTOR_TYPE_SAMPLER : Z := 0.
Definition DESCRIPTOR_TYPE_UNIFORM_BUFFER : Z := 6.
  (* VkIndexType *)
Definition INDEX_TYPE_UINT32 : Z := 1.
End Vk.

(** ** Surface capabilities and the swapchain parameters
    (src/src/renderer/resize_dependent_components/swapchain_components.rs) *)

Record Extent2D := mkExtent2D { width : Z; height : Z }.

Record SurfaceCapabilitiesKHR := mkSurfaceCapabilities {
  min_image_count : Z;
  max_image_count : Z;
  current_extent : Extent2D
}.

(** [let mut desired_image_count = surface_capabilities.min_image_count + 1;
     if max_image_count > 0 && desired_image_count > max_image_count
     { desired_image_count = max_image_count; }].
    The [u32] addition panics on overflow (debug build). *)
Definition desired_image_count (caps : SurfaceCapabilitiesKHR) : Rust Z :=
  let sum := min_image_count caps + 1 in
  if u32_max <? sum then Panic "attempt to add with overflow"
  else
    let desired_image_count := sum in
    if (0 <? max_image_count caps) && (max_image_count caps <? desired_image_count)
    then Ret (max_image_count caps)
    else Ret desired_image_count.

(** Window inner size in physical pixels ([window.inner_size()]). *)
Record PhysicalSize := mkPhysicalSize { size_width : Z; size_height : Z }.

(** [match surface_capabilities.current_extent.width {
       u32::MAX => Extent2D { width: inner.width.max(1), height: inner.height.max(1) },
       _ => surface_capabilities.current_extent }]  (SwapchainComponents::new) *)
Definition surface_resolution (caps : SurfaceCapabilitiesKHR) (inner : PhysicalSize)
  : Extent2D :=
  if width (current_extent caps) =? u32_max
  then mkExtent2D (Z.max (size_width inner) 1) (Z.max (size_height inner) 1)
  else current_extent caps.


(** ** Memory-type search ([find_memorytype_index], src/src/renderer.rs) *)

Record MemoryType := mkMemoryType { property_flags : Z; heap_index : Z }.

(** [vk::PhysicalDeviceMemoryProperties]: [memory_types] is the fixed array of
    [VK_MAX_MEMORY_TYPES] = 32 entries. *)
Record PhysicalDeviceMemoryProperties := mkMemoryProperties {
  memory_type_count : Z;
  memory_types : list MemoryType
}.

Record MemoryRequirements := mkMemoryRequirements {
  req_size : Z;
  req_alignment : Z;
  memory_type_bits : Z
}.

(** [&arr[..n]]: panics when [n] exceeds the array length. *)
Definition slice_to {A} (l : list A) (n : Z) : Rust (list A) :=
  if Z.of_nat (List.length l) <? n then Panic "range end index out of range for slice"
  else Ret (firstn (Z.to_nat n) l).

(** [.iter().enumerate().find(|(index, memory_type)| ...).map(|(index, _)| index)] *)
Fixpoint find_enumerated (memory_req : MemoryRequirements) (flags : Z)
  (index : Z) (l : list MemoryType) : option Z :=
  match l with
  | [] => None
  | memory_type :: rest =>
      if negb (Z.land (Z.shiftl 1 index) (memory_type_bits memory_req) =? 0)
         && (Z.land (property_flags memory_type) flags =? flags)
      then Some index
      else find_enumerated memory_req flags (index + 1) rest
  end.

Definition find_memorytype_index (memory_req : MemoryRequirements)
  (memory_prop : PhysicalDeviceMemoryProperties) (flags : Z) : Rust (option Z) :=
  match slice_to (memory_types memory_prop) (memory_type_count memory_prop) with
  | Panic m => Panic m
  | Ret types => Ret (find_enumerated memory_req flags 0 types)
  end.

(** The qualification test as the claim words it: bit [i] of the mask is set
    and the type's property flags contain all requested flags. *)
Definition memory_type_qualifies (memory_req : MemoryRequirements)
  (memory_prop : PhysicalDeviceMemoryProperties) (flags : Z) (i : Z) : Prop :=
  Z.testbit (memory_type_bits memory_req) i = true /\
  Z.land (property_flags (nth (Z.to_nat i) (memory_types memory_prop)
                               (mkMemoryType 0 0))) flags = flags.

(** ** Device calls *)

Record BufferCopy := mkBufferCopy { src_offset : Z; dst_offset : Z; copy_size : Z }.

(** Commands recorded into a command buffer by a recording callback. *)
Inductive DeviceCmd :=
| CmdCopyBuffer (src dst : Z) (regions : list BufferCopy)
| CmdBeginRendering (color_view depth_view : Z)
| CmdSetScissor (first : Z) (scissors : list Extent2D)
| CmdBindVertexBuffers (first : Z) (buffers offsets : list Z)
| CmdBindIndexBuffer (buffer offset index_type : Z)
| CmdDrawIndexed (index_count instance_count first_index vertex_offset first_instance : Z)
| CmdEndRendering.

(** The [ash::Device] / swapchain-loader calls the code makes, in order. *)
Inductive vk_call :=
| WaitForFences (fences : list Z)
| ResetFences (fences : list Z)
| ResetCommandBuffer (cb flags : Z)
| BeginCommandBuffer (cb usage_flags : Z)
| Record (cb : Z) (c : DeviceCmd)
| EndCommandBuffer (cb : Z)
| QueueSubmit (queue : Z) (wait_semaphores wait_dst_stage_mask command_buffers
                signal_semaphores : list Z) (fence : Z)
| AcquireNextImage (swapchain timeout semaphore fence : Z)
| QueuePresent (queue : Z) (wait_semaphores swapchains image_indices : list Z)
| CreateBuffer (buffer size usage : Z)
| GetBufferMemoryRequirements (buffer : Z)
| AllocateMemory (memory allocation_size memory_type_index : Z)
| BindBufferMemory (buffer memory offset : Z)
| MapMemory (memory offset size : Z)
| UnmapMemory (memory : Z)
| CopyToMapping (mapping : Z) (element_count : nat)
| DestroyBuffer (buffer : Z)
| FreeMemory (memory : Z)
| CreateDescriptorSetLayout (layout : Z) (binding descriptor_type descriptor_count stage : Z)
| CreateDescriptorPool (pool : Z) (pool_descriptor_type descriptor_count max_sets : Z)
| AllocateDescriptorSets (pool : Z) (layouts : list Z) (sets : list Z)
| UpdateDescriptorSet (dst_set dst_binding descriptor_type descriptor_count buffer
                       offset range : Z).

(** ** Synchronized command submission
    ([record_submit_commandbuffer], src/src/renderer/command_buffer_components.rs).
    The recording callback [submission_function] is given by the list of
    commands it records into the buffer it receives. *)
Definition record_submit_commandbuffer (queue command_buffer command_buffer_reuse_fence : Z)
  (wait_mask wait_semaphores signal_semaphores : list Z)
  (submission_function : Z -> list DeviceCmd) : list vk_call :=
  [WaitForFences [command_buffer_reuse_fence];
   ResetFences [command_buffer_reuse_fence];
   ResetCommandBuffer command_buffer Vk.COMMAND_BUFFER_RESET_RELEASE_RESOURCES;
   BeginCommandBuffer command_buffer Vk.COMMAND_BUFFER_USAGE_ONE_TIME_SUBMIT]
  ++ map (Record command_buffer) (submission_function command_buffer)
  ++ [EndCommandBuffer command_buffer;
      QueueSubmit queue wait_semaphores wait_mask [command_buffer] signal_semaphores
                  command_buffer_reuse_fence].

(** The copy of the protocol in src/src/renderer.rs, with its own argument order. *)
Module RendererRs.
Definition record_submit_commandbuffer (command_buffer command_buffer_reuse_fence
    submit_queue : Z) (wait_mask wait_semaphores signal_semaphores : list Z)
    (f : Z -> list DeviceCmd) : list vk_call :=
    [WaitForFences [command_buffer_reuse_fence];
     ResetFences [command_buffer_reuse_fence];
     ResetCommandBuffer command_buffer Vk.COMMAND_BUFFER_RESET_RELEASE_RESOURCES;
     BeginCommandBuffer command_buffer Vk.COMMAND_BUFFER_USAGE_ONE_TIME_SUBMIT]
    ++ map (Record command_buffer) (f command_buffer)
    ++ [EndCommandBuffer command_buffer;
        QueueSubmit submit_queue wait_semaphores wait_mask [command_buffer]
                    signal_semaphores command_buffer_reuse_fence].
End RendererRs.

(** *** Fence semantics

    Host-side state of the fences: [signaled f] is the fence's status and
    [pending f] holds while a queue submission that will signal [f] has not
    completed on the GPU.  A host call is a partial step ([None] = the call
    blocks: [vkWaitForFences] with timeout [u64::MAX] returns only once every
    fence is signaled); the GPU may complete a pending submission at any
    point between host calls. *)
Record FenceState := mkFenceState { signaled : Z -> bool; pending : Z -> bool }.

Definition upd (g : Z -> bool) (k : Z) (b : bool) : Z -> bool :=
  fun x => if x =? k then b else g x.

Definition host_step (s : FenceState) (c : vk_call) : option FenceState :=
  match c with
  | WaitForFences fs =>
      if forallb (signaled s) fs then Some s else None
  | ResetFences fs =>
      Some (mkFenceState (fun x => if existsb (Z.eqb x) fs then false else signaled s x)
                         (pending s))
  | QueueSubmit _ _ _ _ _ fence =>
      Some (mkFenceState (signaled s) (upd (pending s) fence true))
  | _ => Some s
  end.

(** The GPU finishes the submission guarded by [f] and signals [f]. *)
Definition gpu_complete (s : FenceState) (f : Z) : FenceState :=
  mkFenceState (upd (signaled s) f true) (upd (pending s) f false).

(** [exec s calls tr s']: the host issues [calls] in order from [s], with GPU
    completions interleaved; [tr] records each host call with the state in
    which it was issued. *)
Inductive exec : FenceState -> list vk_call -> list (vk_call * FenceState)
                 -> FenceState -> Prop :=
| exec_nil s : exec s [] [] s
| exec_gpu s f calls tr s' :
    pending s f = true -> exec (gpu_complete s f) calls tr s' -> exec s calls tr s'
| exec_host s c s1 calls tr s' :
    host_step s c = Some s1 -> exec s1 calls tr s' -> exec s (c :: calls) ((c, s) :: tr) s'.

(** A fence with a submission in flight is unsignaled: true of fences created
    signaled with nothing submitted, and kept by the protocol below. *)
Definition fences_ok (s : FenceState) : Prop :=
  forall f, pending s f = true -> signaled s f = false.

(** Calls that touch (reset, begin, record into, end) command buffer [cb]. *)
Definition touches_cb (cb : Z) (c : vk_call) : bool :=
  match c with
  | ResetCommandBuffer b _ | BeginCommandBuffer b _ | Record b _ | EndCommandBuffer b =>
      b =? cb
  | _ => false
  end.

(** ** Typed GPU buffer ([Buffer<T>], src/src/renderer/buffer.rs)

    [size_of_T] is [size_of::<T>()]; the handles and memory requirements the
    device hands back ([create_buffer], [allocate_memory], [map_memory],
    [get_buffer_memory_requirements]) are inputs of the model. *)

Definition usize_max : Z := 18446744073709551615.

Record Buffer := mkBuffer {
  buffer : Z;
  memory : Z;
  size : Z;                    (* size_of::<T>() * buffer_len, in bytes *)
  usage : Z;
  memory_properties : Z;
  mapping : option Z           (* the persistent [Align<T>] mapping, by its pointer *)
}.

(** [Buffer::new]: returns the buffer and the device calls, in order. *)
Definition buffer_new (size_of_T : Z)
  (physical_device_memory_properties : PhysicalDeviceMemoryProperties)
  (usage memory_properties buffer_len : Z) (persistent_mapping : bool)
  (new_buffer new_memory data_ptr : Z) (buffer_memory_reqs : MemoryRequirements)
  : Rust (Buffer * list vk_call) :=
  let buffer_size := size_of_T * buffer_len in
  if usize_max <? buffer_size then Panic "attempt to multiply with overflow" else
  let create := [CreateBuffer new_buffer buffer_size usage;
                 GetBufferMemoryRequirements new_buffer] in
  match find_memorytype_index buffer_memory_reqs physical_device_memory_properties
          memory_properties with
  | Panic m => Panic m
  | Ret None => Panic "Failed to find suitable memory type for buffer"
  | Ret (Some buffer_memory_index) =>
      let alloc := [AllocateMemory new_memory (req_size buffer_memory_reqs)
                                   buffer_memory_index;
                    BindBufferMemory new_buffer new_memory 0] in
      let '(mapping, map_calls) :=
        if persistent_mapping
        then (Some data_ptr, [MapMemory new_memory 0 (req_size buffer_memory_reqs)])
        else (None, []) in
      Ret (mkBuffer new_buffer new_memory buffer_size usage memory_properties mapping,
           create ++ alloc ++ map_calls)
  end.

(** [assert_eq!(flags & bit, bit)] *)
Definition has_flags (flags bits : Z) : bool := Z.land flags bits =? bits.

(** [Buffer::write_data_direct]: [data] is the slice written; [buffer_memory_reqs]
    and [data_ptr] are what the device returns when the buffer is mapped for
    this call. *)
Definition write_data_direct {T} (self : Buffer) (data : list T)
  (buffer_memory_reqs : MemoryRequirements) (data_ptr : Z) : Rust (list vk_call) :=
  if negb (has_flags (memory_properties self) Vk.MEMORY_PROPERTY_HOST_VISIBLE)
  then Panic "assertion `left == right` failed" else
  if negb (has_flags (memory_properties self) Vk.MEMORY_PROPERTY_HOST_COHERENT)
  then Panic "assertion `left == right` failed" else
  if negb (Z.of_nat (List.length data) <=? size self)
  then Panic "assertion failed: data.len() <= self.size" else
  match mapping self with
  | Some m => Ret [CopyToMapping m (List.length data)]
  | None =>
      Ret [GetBufferMemoryRequirements (buffer self);
           MapMemory (memory self) 0 (req_size buffer_memory_reqs);
           CopyToMapping data_ptr (List.length data);
           UnmapMemory (memory self)]
  end.

(** [Buffer::write_from_staging] *)
Definition write_from_staging (self staging_buffer : Buffer)
  (command_buffer command_buffer_reuse_fence submit_queue : Z) : Rust (list vk_call) :=
  if negb (has_flags (usage self) Vk.BUFFER_USAGE_TRANSFER_DST)
  then Panic "assertion `left == right` failed" else
  if negb (has_flags (usage staging_buffer) Vk.BUFFER_USAGE_TRANSFER_SRC)
  then Panic "assertion `left == right` failed" else
  if negb (size staging_buffer <=? size self)
  then Panic "assertion failed: self.size >= staging_buffer.size" else
  let copy_region := mkBufferCopy 0 0 (size staging_buffer) in
  Ret (record_submit_commandbuffer submit_queue command_buffer command_buffer_reuse_fence
         [] [] []
         (fun command_buffer =>
            [CmdCopyBuffer (buffer staging_buffer) (buffer self) [copy_region]])).

(** [Buffer::cleanup] *)
Definition buffer_cleanup (self : Buffer) : list vk_call :=
  [DestroyBuffer (buffer self); FreeMemory (memory self)].

(** ** Descriptor and uniform set
    ([DescriptorComponents::new], src/src/renderer/descriptor_components.rs)

    The device is a state that hands out fresh handles and records the calls
    made; [M] is a state-and-panic monad over it. *)

Record Dev := mkDev { next_handle : Z; calls : list vk_call }.

Definition M (A : Type) : Type := Dev -> Rust (A * Dev).

Definition mret {A} (a : A) : M A := fun d => Ret (a, d).
Definition mbind {A B} (m : M A) (k : A -> M B) : M B :=
  fun d => match m d with Panic e => Panic e | Ret (a, d') => k a d' end.
Definition mpanic {A} (msg : string) : M A := fun _ => Panic msg.
Definition emit (c : vk_call) : M unit :=
  fun d => Ret (tt, mkDev (next_handle d) (calls d ++ [c])).
Definition fresh : M Z :=
  fun d => Ret (next_handle d, mkDev (next_handle d + 1) (calls d)).

Notation "x <- m ;; k" := (mbind m (fun x => k))
  (at level 61, m at next level, right associativity).
Notation "m ;; k" := (mbind m (fun _ => k)) (at level 61, right associativity).

Fixpoint fresh_many (n : nat) : M (list Z) :=
  match n with
  | O => mret []
  | S n' => h <- fresh ;; hs <- fresh_many n' ;; mret (h :: hs)
  end.

(** [size_of::<UniformBufferObject>()]: three [Matrix4<f32>]. *)
Definition ubo_size : Z := 192.

Record DescriptorComponents := mkDescriptorComponents {
  descriptor_pool : Z;
  descriptor_sets : list Z;
  descriptor_set_layout : Z;
  uniform_buffers : list Z;
  uniform_buffer_memories : list Z;
  uniform_buffer_mappings : option (list Z)
}.

Section DescriptorNew.
Variable device_memory_properties : PhysicalDeviceMemoryProperties.
  (** What [get_buffer_memory_requirements] reports for a uniform buffer. *)
Variable memory_reqs : MemoryRequirements.

  (** One iteration of [for _ in 0..present_image_count]: returns the
      buffer, its memory and its mapping pointer, which the loop pushes. *)
Definition create_uniform_buffer : M (Z * Z * Z) :=
    uniform_buffer <- fresh ;;
    emit (CreateBuffer uniform_buffer ubo_size Vk.BUFFER_USAGE_UNIFORM_BUFFER) ;;
    emit (GetBufferMemoryRequirements uniform_buffer) ;;
    memory_index <-
      (match find_memorytype_index memory_reqs device_memory_properties
               (Z.lor Vk.MEMORY_PROPERTY_HOST_VISIBLE Vk.MEMORY_PROPERTY_HOST_COHERENT) with
       | Panic m => mpanic m
       | Ret None => mpanic "Failed to get uniform buffer memtype index."
       | Ret (Some i) => mret i
       end) ;;
    uniform_buffer_memory <- fresh ;;
    emit (AllocateMemory uniform_buffer_memory (req_size memory_reqs) memory_index) ;;
    emit (BindBufferMemory uniform_buffer uniform_buffer_memory 0) ;;
    memory_ptr <- fresh ;;
    emit (MapMemory uniform_buffer_memory 0 (req_size memory_reqs)) ;;
    mret (uniform_buffer, uniform_buffer_memory, memory_ptr).

Fixpoint uniform_loop (k : nat) (bufs mems maps : list Z) : M (list Z * list Z * list Z) :=
    match k with
    | O => mret (bufs, mems, maps)
    | S k' =>
        bmp <- create_uniform_buffer ;;
        let '(b, m, p) := bmp in
        uniform_loop k' (bufs ++ [b]) (mems ++ [m]) (maps ++ [p])
    end.

  (** [for i in 0..descriptor_sets.len()]: write set [i] to point at
      [uniform_buffers[i]] (indexing panics when out of range). *)
Fixpoint write_descriptor_sets (i : nat) (sets uniform_buffers : list Z) : M unit :=
    match sets with
    | [] => mret tt
    | s :: rest =>
        match nth_error uniform_buffers i with
        | None => mpanic "index out of bounds"
        | Some b =>
            emit (UpdateDescriptorSet s 0 Vk.DESCRIPTOR_TYPE_UNIFORM_BUFFER 1 b 0 ubo_size) ;;
            write_descriptor_sets (S i) rest uniform_buffers
        end
    end.

Definition descriptor_components_new (present_image_count : Z) : M DescriptorComponents :=
    loop_result <- uniform_loop (Z.to_nat present_image_count) [] [] [] ;;
    let '(uniform_buffers, uniform_buffer_memories, uniform_buffer_mappings) :=
      loop_result in
    descriptor_set_layout <- fresh ;;
    emit (CreateDescriptorSetLayout descriptor_set_layout 0
            Vk.DESCRIPTOR_TYPE_UNIFORM_BUFFER 1 Vk.SHADER_STAGE_VERTEX) ;;
    descriptor_pool <- fresh ;;
    (* [vk::DescriptorPoolSize::default()] leaves the type at its default, SAMPLER *)
    emit (CreateDescriptorPool descriptor_pool Vk.DESCRIPTOR_TYPE_SAMPLER
            present_image_count present_image_count) ;;
    let set_layouts := repeat descriptor_set_layout (Z.to_nat present_image_count) in
    (* a successful [vkAllocateDescriptorSets] returns one set per layout *)
    descriptor_sets <- fresh_many (List.length set_layouts) ;;
    emit (AllocateDescriptorSets descriptor_pool set_layouts descriptor_sets) ;;
    write_descriptor_sets 0 descriptor_sets uniform_buffers ;;
    mret (mkDescriptorComponents descriptor_pool descriptor_sets descriptor_set_layout
            uniform_buffers uniform_buffer_memories (Some uniform_buffer_mappings)).
End DescriptorNew.

(** ** Frame loop of [Renderer] (src/src/renderer.rs) *)

(** [VkResult] codes. *)
Module VkResult.
Definition SUCCESS : Z := 0.
Definition NOT_READY : Z := 1.
Definition TIMEOUT : Z := 2.
Definition ERROR_DEVICE_LOST : Z := -4.
Definition ERROR_SURFACE_LOST_KHR : Z := -1000000000.
Definition SUBOPTIMAL_KHR : Z := 1000001003.
Definition ERROR_OUT_OF_DATE_KHR : Z := -1000001004.
End VkResult.

Definition u64_max : Z := 18446744073709551615.

(** ash's [acquire_next_image]: [SUCCESS] gives [Ok((index, false))],
    [SUBOPTIMAL_KHR] gives [Ok((index, true))], every other code [Err(code)]. *)
Definition ash_acquire_next_image (err_code index : Z) : (Z * bool) + Z :=
  if err_code =? VkResult.SUCCESS then inl (index, false)
  else if err_code =? VkResult.SUBOPTIMAL_KHR then inl (index, true)
  else inr err_code.

(** ash's [queue_present]: [Ok(false)], [Ok(true)] (suboptimal) or [Err(code)]. *)
Definition ash_queue_present (err_code : Z) : bool + Z :=
  if err_code =? VkResult.SUCCESS then inl false
  else if err_code =? VkResult.SUBOPTIMAL_KHR then inl true
  else inr err_code.

(** The fields of [Renderer] that [draw_frame] reads. *)
Record Renderer := mkRenderer {
  swapchain : Z;
  present_image_views : list Z;
  depth_image_view : Z;
  draw_command_buffer : Z;
  draw_commands_reuse_fence : Z;
  present_queue : Z;
  present_complete_semaphore : Z;
  rendering_complete_semaphore : Z;
  scissors : list Extent2D;
  vertex_input_buffer : Z;
  index_buffer : Z
}.

(** [INDICES.len()] *)
Definition INDICES_len : Z := 3.

(** [Renderer::draw_frame]: [acquire_code]/[acquired_index] are what
    [vkAcquireNextImageKHR] returns, [present_code] what [vkQueuePresentKHR]
    returns.  Result: the calls made, or the panic. *)
Definition draw_frame (self : Renderer) (acquire_code acquired_index present_code : Z)
  : Rust (list vk_call) :=
  let acquire := AcquireNextImage (swapchain self) u64_max
                   (present_complete_semaphore self) 0 in
  match ash_acquire_next_image acquire_code acquired_index with
  | inr _ => Panic "called `Result::unwrap()` on an `Err` value"
  | inl (present_index, _) =>
      match nth_error (present_image_views self) (Z.to_nat present_index) with
      | None => Panic "index out of bounds"
      | Some color_view =>
          let submit :=
            RendererRs.record_submit_commandbuffer (draw_command_buffer self)
              (draw_commands_reuse_fence self) (present_queue self)
              [Vk.PIPELINE_STAGE_COLOR_ATTACHMENT_OUTPUT]
              [present_complete_semaphore self] [rendering_complete_semaphore self]
              (fun draw_command_buffer =>
                 [CmdBeginRendering color_view (depth_image_view self);
                  CmdSetScissor 0 (scissors self);
                  CmdBindVertexBuffers 0 [vertex_input_buffer self] [0];
                  CmdBindIndexBuffer (index_buffer self) 0 Vk.INDEX_TYPE_UINT32;
                  CmdDrawIndexed INDICES_len 1 0 0 1;
                  CmdEndRendering]) in
          let present := QueuePresent (present_queue self)
                           [rendering_complete_semaphore self] [swapchain self]
                           [present_index] in
          match ash_queue_present present_code with
          | inr _ => Panic "Swapchain loader failed to present"
          | inl _ => Ret ([acquire] ++ submit ++ [present])
          end
      end
  end.

(** ** Camera and controller (src/src/renderer/camera.rs)

    [f32] arithmetic is left abstract: the model is parametric in the float
    type and its operations ([sin], [cos] are [f32::sin], [f32::cos]). *)

Class FloatOps (F : Type) := {
  fadd : F -> F -> F;
  fsub : F -> F -> F;
  fmul : F -> F -> F;
  fsin : F -> F;
  fcos : F -> F;
  f_zero : F;
  f_one : F;
  f_minus_one : F
}.

Record Vector3 (F : Type) := mkVector3 { vx : F; vy : F; vz : F }.
Arguments mkVector3 {F} vx vy vz.
Arguments vx {F} v.
Arguments vy {F} v.
Arguments vz {F} v.

Record Camera (F : Type) := mkCamera {
  position : Vector3 F;
  phi : F;
  theta : F;
  up : Vector3 F;
  fovy : F;
  znear : F;
  zfar : F
}.
Arguments mkCamera {F} position phi theta up fovy znear zfar.
Arguments position {F} c.
Arguments phi {F} c.
Arguments theta {F} c.
Arguments up {F} c.
Arguments fovy {F} c.
Arguments znear {F} c.
Arguments zfar {F} c.

Record CameraController (F : Type) := mkCameraController {
  speed : F;
  mouse_sens : F;
  mouse_delta_x : F;
  mouse_delta_y : F;
  forward_pressed : bool;
  backward_pressed : bool;
  left_pressed : bool;
  right_pressed : bool
}.
Arguments mkCameraController {F} speed mouse_sens mouse_delta_x mouse_delta_y
  forward_pressed backward_pressed left_pressed right_pressed.
Arguments speed {F} c.
Arguments mouse_sens {F} c.
Arguments mouse_delta_x {F} c.
Arguments mouse_delta_y {F} c.
Arguments forward_pressed {F} c.
Arguments backward_pressed {F} c.
Arguments left_pressed {F} c.
Arguments right_pressed {F} c.

Section CameraModel.
Context {F : Type} `{FloatOps F}.

Definition vadd (a b : Vector3 F) : Vector3 F :=
    mkVector3 (fadd (vx a) (vx b)) (fadd (vy a) (vy b)) (fadd (vz a) (vz b)).
Definition vsub (a b : Vector3 F) : Vector3 F :=
    mkVector3 (fsub (vx a) (vx b)) (fsub (vy a) (vy b)) (fsub (vz a) (vz b)).
Definition vscale (a : Vector3 F) (k : F) : Vector3 F :=
    mkVector3 (fmul (vx a) k) (fmul (vy a) k) (fmul (vz a) k).
  (** nalgebra's [cross] *)
Definition vcross (a b : Vector3 F) : Vector3 F :=
    mkVector3 (fsub (fmul (vy a) (vz b)) (fmul (vz a) (vy b)))
              (fsub (fmul (vz a) (vx b)) (fmul (vx a) (vz b)))
              (fsub (fmul (vx a) (vy b)) (fmul (vy a) (vx b))).
  (** [Vector3::y_axis().scale(-1.0)] *)
Definition neg_y_axis : Vector3 F :=
    vscale (mkVector3 f_zero f_one f_zero) f_minus_one.

  (** [Camera::forward] *)
Definition forward (cam : Camera F) : Vector3 F :=
    mkVector3 (fmul (fsin (phi cam)) (fsin (theta cam)))
              (fmul f_minus_one (fcos (phi cam)))
              (fmul (fsin (phi cam)) (fcos (theta cam))).

Definition set_position (cam : Camera F) (p : Vector3 F) : Camera F :=
    mkCamera p (phi cam) (theta cam) (up cam) (fovy cam) (znear cam) (zfar cam).

  (** [CameraController::update_camera]: both [&mut] arguments are returned. *)
Definition update_camera (self : CameraController F) (camera : Camera F)
    : CameraController F * Camera F :=
    let fwd := forward camera in
    let right := vcross fwd neg_y_axis in
    let camera := if forward_pressed self
                  then set_position camera (vadd (position camera) (vscale fwd (speed self)))
                  else camera in
    let camera := if backward_pressed self
                  then set_position camera (vsub (position camera) (vscale fwd (speed self)))
                  else camera in
    let camera := if left_pressed self
                  then set_position camera (vsub (position camera) (vscale right (speed self)))
                  else camera in
    let camera := if right_pressed self
                  then set_position camera (vadd (position camera) (vscale right (speed self)))
                  else camera in
    let camera := mkCamera (position camera) (phi camera)
                    (fadd (theta camera) (fmul (mouse_delta_x self) (mouse_sens self)))
                    (up camera) (fovy camera) (znear camera) (zfar camera) in
    let camera := mkCamera (position camera)
                    (fadd (phi camera) (fmul (mouse_delta_y self) (mouse_sens self)))
                    (theta camera) (up camera) (fovy camera) (znear camera) (zfar camera) in
    let self := mkCameraController (speed self) (mouse_sens self) f_zero f_zero
                  (forward_pressed self) (backward_pressed self)
                  (left_pressed self) (right_pressed self) in
    (self, camera).
End CameraModel.

(** ** Present mode of the swapchain
    ([SwapchainComponents::new] and [Renderer::new]) *)

(** [VkPresentModeKHR] values. *)
Module PresentMode.
Definition IMMEDIATE : Z := 0.
Definition MAILBOX : Z := 1.
Definition FIFO : Z := 2.
Definition FIFO_RELAXED : Z := 3.
End PresentMode.

(** [present_modes.iter().cloned().find(|&mode| mode == MAILBOX).unwrap_or(FIFO)] *)
Definition select_present_mode (present_modes : list Z) : Z :=
  match find (fun mode => mode =? PresentMode.MAILBOX) present_modes with
  | Some mode => mode
  | None => PresentMode.FIFO
  end.

(** ** Physical-device selection ([Renderer::new], src/src/renderer.rs) *)

Module QueueFlags.
Definition GRAPHICS : Z := 1.
End QueueFlags.

(** [VkPhysicalDeviceType] values. *)
Module PhysicalDeviceType.
Definition OTHER : Z := 0.
Definition INTEGRATED_GPU : Z := 1.
Definition DISCRETE_GPU : Z := 2.
Definition VIRTUAL_GPU : Z := 3.
Definition CPU : Z := 4.
End PhysicalDeviceType.

(** A queue family as the selection sees it: its [queue_flags] and what
    [get_physical_device_surface_support] returns for it ([Panic] is the
    [unwrap] of an error). *)
Record QueueFamilyInfo := mkQueueFamilyInfo {
  queue_flags : Z;
  surface_support : Rust bool
}.

(** A physical device with what the instance reports for it: its queue
    families and, from [get_physical_device_properties], its type and
    [limits.max_image_dimension2_d]. *)
Record PhysicalDeviceInfo := mkPhysicalDeviceInfo {
  physical_device : Z;
  queue_families : list QueueFamilyInfo;
  device_type : Z;
  max_image_dimension2_d : Z
}.

(** The [.iter().enumerate().find_map(..)] over the queue families: the
    first index whose family contains GRAPHICS and supports the surface; the
    [&&] asks for surface support only of graphics families. *)
Fixpoint find_queue_family (index : Z) (families : list QueueFamilyInfo)
  : Rust (option Z) :=
  match families with
  | [] => Ret None
  | info :: rest =>
      let supports_graphics_and_surface :=
        if has_flags (queue_flags info) QueueFlags.GRAPHICS
        then surface_support info else Ret false in
      match supports_graphics_and_surface with
      | Panic m => Panic m
      | Ret true => Ret (Some index)
      | Ret false => find_queue_family (index + 1) rest
      end
  end.

(** The [max_by_key] closure; [score] is a [u32], so the second addition
    panics on overflow (debug build). *)
Definition device_score (pd : PhysicalDeviceInfo) : Rust Z :=
  let score := 0 in
  let score :=
    if device_type pd =? PhysicalDeviceType.DISCRETE_GPU then score + 1000
    else if device_type pd =? PhysicalDeviceType.INTEGRATED_GPU then score + 100
    else if device_type pd =? PhysicalDeviceType.VIRTUAL_GPU then score + 10
    else if device_type pd =? PhysicalDeviceType.CPU then score + 1
    else score in
  let score := score + max_image_dimension2_d pd in
  if u32_max <? score then Panic "attempt to add with overflow" else Ret score.

(** [physical_devices.iter().filter_map(..).max_by_key(..)]: the iterator is
    lazy, so each device's queue families are searched, and the key of a
    device that passes is computed, before the next device is looked at.
    [best] is the running maximum with its key; on equal keys [max_by] keeps
    the later element. *)
Fixpoint max_by_key_supported (best : option (Z * (Z * PhysicalDeviceInfo)))
  (devices : list PhysicalDeviceInfo) : Rust (option (Z * PhysicalDeviceInfo)) :=
  match devices with
  | [] => Ret (option_map snd best)
  | pd :: rest =>
      match find_queue_family 0 (queue_families pd) with
      | Panic m => Panic m
      | Ret None => max_by_key_supported best rest
      | Ret (Some index) =>
          match device_score pd with
          | Panic m => Panic m
          | Ret key =>
              let best' :=
                match best with
                | None => (key, (index, pd))
                | Some (best_key, x) =>
                    if best_key <=? key then (key, (index, pd)) else (best_key, x)
                end in
              max_by_key_supported (Some best') rest
          end
      end
  end.

(** [.expect("No supported physical device found")]: the queue family index
    and the chosen device. *)
Definition select_physical_device (devices : list PhysicalDeviceInfo)
  : Rust (Z * PhysicalDeviceInfo) :=
  match max_by_key_supported None devices with
  | Panic m => Panic m
  | Ret None => Panic "No supported physical device found"
  | Ret (Some x) => Ret x
  end.

(** A queue family the selection accepts, and a device that has one. *)
Definition family_qualifies (qf : QueueFamilyInfo) : Prop :=
  has_flags (queue_flags qf) QueueFlags.GRAPHICS = true /\ surface_support qf = Ret true.

Definition device_supported (pd : PhysicalDeviceInfo) : Prop :=
  exists qf, In qf (queue_families pd) /\ family_qualifies qf.

(** ** Teardown of the descriptor set
    ([DescriptorComponents::cleanup], src/src/renderer/descriptor_components.rs) *)

(** Teardown calls: the device calls above and the descriptor destructors. *)
Inductive teardown_call :=
| Call (c : vk_call)
| DestroyDescriptorPool (pool : Z)
| DestroyDescriptorSetLayout (layout : Z).

(** [for i in 0..self.uniform_buffers.len()]: unmap and free
    [uniform_buffer_memories[i]] (indexing panics when out of range), then
    destroy [uniform_buffers[i]]. *)
Fixpoint descriptor_cleanup_loop (i : nat) (uniform_buffers memories : list Z)
  : Rust (list teardown_call) :=
  match uniform_buffers with
  | [] => Ret []
  | uniform_buffer :: rest =>
      match nth_error memories i with
      | None => Panic "index out of bounds"
      | Some memory =>
          match descriptor_cleanup_loop (S i) rest memories with
          | Panic m => Panic m
          | Ret cs =>
              Ret ([Call (UnmapMemory memory); Call (FreeMemory memory);
                    Call (DestroyBuffer uniform_buffer)] ++ cs)
          end
      end
  end.

(** [DescriptorComponents::cleanup]: the calls and the updated [self]. *)
Definition descriptor_components_cleanup (self : DescriptorComponents)
  : Rust (list teardown_call * DescriptorComponents) :=
  match descriptor_cleanup_loop 0 (uniform_buffers self) (uniform_buffer_memories self) with
  | Panic m => Panic m
  | Ret cs =>
      Ret ([DestroyDescriptorPool (descriptor_pool self);
            DestroyDescriptorSetLayout (descriptor_set_layout self)] ++ cs,
           mkDescriptorComponents (descriptor_pool self) (descriptor_sets self)
             (descriptor_set_layout self) (uniform_buffers self)
             (uniform_buffer_memories self) None)
  end.

(** ** Keyboard input ([App::window_event], [WindowEvent::KeyboardInput],
    src/src/app.rs) *)

Inductive KeyCode :=
| KeyA | KeyD | KeyS | KeyW
| ArrowLeft | ArrowRight | ArrowDown | ArrowUp
| OtherKeyCode (code : Z).

Inductive PhysicalKey :=
| Code (k : KeyCode)
| Unidentified.

(** The controller after the event; [is_pressed] is [event.state.is_pressed()]. *)
Definition keyboard_input {F} (camera_controller : CameraController F)
  (physical_key : PhysicalKey) (is_pressed : bool) : CameraController F :=
  let c := camera_controller in
  match physical_key with
  | Code KeyA | Code ArrowLeft =>
      mkCameraController (speed c) (mouse_sens c) (mouse_delta_x c) (mouse_delta_y c)
        (forward_pressed c) (backward_pressed c) is_pressed (right_pressed c)
  | Code KeyD | Code ArrowRight =>
      mkCameraController (speed c) (mouse_sens c) (mouse_delta_x c) (mouse_delta_y c)
        (forward_pressed c) (backward_pressed c) (left_pressed c) is_pressed
  | Code KeyS | Code ArrowDown =>
      mkCameraController (speed c) (mouse_sens c) (mouse_delta_x c) (mouse_delta_y c)
        (forward_pressed c) is_pressed (left_pressed c) (right_pressed c)
  | Code KeyW | Code ArrowUp =>
      mkCameraController (speed c) (mouse_sens c) (mouse_delta_x c) (mouse_delta_y c)
        is_pressed (backward_pressed c) (left_pressed c) (right_pressed c)
  | _ => c
  end.

(** [CameraController::new] (src/src/renderer/camera.rs). *)
Definition camera_controller_new {F} `{FloatOps F} (speed mouse_sens : F) : CameraController F :=
  mkCameraController speed mouse_sens f_zero f_zero false false false false.

(** The events [App] handles that touch the camera and its controller:
    [DeviceEvent::MouseMotion] (its [f64] deltas given here already cast to
    [f32]), [WindowEvent::KeyboardInput], [WindowEvent::RedrawRequested], and
    every other event. *)
Inductive AppEvent (F : Type) :=
| MouseMotion (delta_x delta_y : F)
| KeyboardInput (physical_key : PhysicalKey) (is_pressed : bool)
| RedrawRequested
| OtherEvent.
Arguments MouseMotion {F} delta_x delta_y.
Arguments KeyboardInput {F} physical_key is_pressed.
Arguments RedrawRequested {F}.
Arguments OtherEvent {F}.

(** [App::device_event] and [App::window_event] on the controller and the
    camera. On [RedrawRequested] the renderer's [draw_frame] only reads the
    camera through a shared reference, so it is left out of this state. *)
Definition app_event {F} `{FloatOps F} (st : CameraController F * Camera F) (event : AppEvent F)
  : CameraController F * Camera F :=
  let '(camera_controller, camera) := st in
  match event with
  | MouseMotion dx dy =>
      let c := camera_controller in
      (mkCameraController (speed c) (mouse_sens c)
         (fadd (mouse_delta_x c) dx) (fadd (mouse_delta_y c) dy)
         (forward_pressed c) (backward_pressed c) (left_pressed c) (right_pressed c),
       camera)
  | KeyboardInput k is_pressed => (keyboard_input camera_controller k is_pressed, camera)
  | RedrawRequested => update_camera camera_controller camera
  | OtherEvent => (camera_controller, camera)
  end.

(** The keys the keyboard handler binds to a movement flag. *)
Definition movement_key (k : PhysicalKey) : bool :=
  match k with
  | Code (KeyA | ArrowLeft | KeyD | ArrowRight | KeyS | ArrowDown | KeyW | ArrowUp) => true
  | _ => false
  end.

Definition presses_movement_key {F} (event : AppEvent F) : bool :=
  match event with
  | KeyboardInput k true => movement_key k
  | _ => false
  end.

(** No movement flag of the controller is set. *)
Definition no_movement_flag {F} (c : CameraController F) : Prop :=
  forward_pressed c = false /\ backward_pressed c = false
  /\ left_pressed c = false /\ right_pressed c = false.

(** ** Sequences of submissions *)

(** The arguments of one [record_submit_commandbuffer] call. *)
Record SubmitArgs := mkSubmitArgs {
  sa_queue : Z;
  sa_command_buffer : Z;
  sa_fence : Z;
  sa_wait_mask : list Z;
  sa_wait_semaphores : list Z;
  sa_signal_semaphores : list Z;
  sa_submission_function : Z -> list DeviceCmd
}.

Definition submit_calls (a : SubmitArgs) : list vk_call :=
  record_submit_commandbuffer (sa_queue a) (sa_command_buffer a) (sa_fence a)
    (sa_wait_mask a) (sa_wait_semaphores a) (sa_signal_semaphores a)
    (sa_submission_function a).

(** ** Concrete inputs used by the examples below *)

(** A device with three memory types: device-local, host-visible+coherent,
    and all three properties; the remaining 29 array entries are unused. *)
Definition sample_memory_properties : PhysicalDeviceMemoryProperties :=
  mkMemoryProperties 3
    ([mkMemoryType 1 0; mkMemoryType 6 0; mkMemoryType 7 0]
     ++ repeat (mkMemoryType 0 0) 29).

(** Requirements of a buffer that may live in memory types 1 and 2. *)
Definition sample_memory_reqs : MemoryRequirements := mkMemoryRequirements 256 64 6.

(** Fences as [CommandBufferComponents::new] creates them: signaled, with
    nothing submitted. *)
Definition initial_fences : FenceState := mkFenceState (fun _ => true) (fun _ => false).

(** A three-element [u32] vertex buffer in host-visible, host-coherent memory,
    created without a persistent mapping; the device hands back buffer 10,
    memory 11 and, when mapped, pointer 12. *)
Definition sample_u32_buffer : Rust (Buffer * list vk_call) :=
  buffer_new 4 sample_memory_properties Vk.BUFFER_USAGE_VERTEX_BUFFER
    (Z.lor Vk.MEMORY_PROPERTY_HOST_VISIBLE Vk.MEMORY_PROPERTY_HOST_COHERENT)
    3 false 10 11 12 sample_memory_reqs.

(** [IndexBufferComponents::cleanup] (src/src/renderer/index_buffer_components.rs),
    the per-component teardown the typed buffer replaces. *)
Definition index_buffer_components_cleanup (index_buffer index_buffer_memory : Z)
  : list vk_call :=
  [FreeMemory index_buffer_memory; DestroyBuffer index_buffer].

(** A renderer with three present images. *)
Definition sample_renderer : Renderer :=
  mkRenderer 1 [20; 21; 22] 30 40 41 50 60 61 [mkExtent2D 800 600] 70 71.

(** Integer arithmetic as a stand-in float type: [update_camera]'s treatment
    of the boolean flags does not depend on the arithmetic. *)
#[local] Instance Z_float_ops : FloatOps Z := {|
  fadd := Z.add; fsub := Z.sub; fmul := Z.mul;
  fsin := fun _ => 0; fcos := fun _ => 1;
  f_zero := 0; f_one := 1; f_minus_one := -1
|}.

Definition sample_camera : Camera Z :=
  mkCamera (mkVector3 0 0 0) 0 0 (mkVector3 0 (-1) 0) 45 0 100.

(** The controller while W is held and the mouse has moved. *)
Definition sample_controller : CameraController Z :=
  mkCameraController 1 1 5 7 true false false false.

(** Four physical devices: an integrated GPU whose second queue family does
    graphics and presents; a discrete GPU whose first graphics family cannot
    present to the surface but whose second can; a CPU device with no queue
    family; and a second discrete GPU, with the same score as the first, whose
    only family does graphics and presents. *)
Definition sample_physical_devices : list PhysicalDeviceInfo :=
  [mkPhysicalDeviceInfo 1 [mkQueueFamilyInfo 2 (Ret true); mkQueueFamilyInfo 3 (Ret true)]
     PhysicalDeviceType.INTEGRATED_GPU 8192;
   mkPhysicalDeviceInfo 2 [mkQueueFamilyInfo 1 (Ret false); mkQueueFamilyInfo 1 (Ret true)]
     PhysicalDeviceType.DISCRETE_GPU 16384;
   mkPhysicalDeviceInfo 3 [] PhysicalDeviceType.CPU 16384;
   mkPhysicalDeviceInfo 4 [mkQueueFamilyInfo 7 (Ret true)]
     PhysicalDeviceType.DISCRETE_GPU 16384].

(** * Properties *)

(** ** Swapchain image count and extent *)

Example desired_image_count_scenario_a :
  desired_image_count (mkSurfaceCapabilities 2 0 (mkExtent2D 800 600)) = Ret 3.
Proof. reflexivity. Qed.

(** Claim C3: for every capability report whose [min_image_count + 1] fits in
    [u32], the desired image count is [min_image_count + 1], lowered to
    [max_image_count] when that is nonzero and exceeded; with
    [min_image_count = 2], [max_image_count = 0] it is 3; and when
    [max_image_count] is nonzero (and, as Vulkan guarantees for a nonzero
    maximum, at least [min_image_count]) the count lies in [[min, max]]. *)
Theorem desired_image_count_clamped (caps : SurfaceCapabilitiesKHR)
  (Hmin : 0 <= min_image_count caps < u32_max)
  (Hmax : is_u32 (max_image_count caps)) :
  desired_image_count caps =
    Ret (if (0 <? max_image_count caps)
            && (max_image_count caps <? min_image_count caps + 1)
         then max_image_count caps else min_image_count caps + 1)
  /\ (forall n, desired_image_count caps = Ret n ->
        max_image_count caps <> 0 -> min_image_count caps <= max_image_count caps ->
        min_image_count caps <= n <= max_image_count caps)
  /\ (forall e, desired_image_count (mkSurfaceCapabilities 2 0 e) = Ret 3).
Proof.
  unfold is_u32, u32_max in *.
  destruct caps as [mn mx e]; simpl in *.
  assert (Hd : desired_image_count (mkSurfaceCapabilities mn mx e) =
    Ret (if (0 <? mx) && (mx <? mn + 1) then mx else mn + 1)).
  { unfold desired_image_count; simpl.
    replace (u32_max <? mn + 1) with false
      by (symmetry; apply Z.ltb_ge; unfold u32_max; lia).
    destruct ((0 <? mx) && (mx <? mn + 1)); reflexivity. }
  split; [exact Hd|]. split.
  - intros n Hn Hnz Hle. rewrite Hd in Hn. injection Hn as <-.
    destruct (0 <? mx) eqn:E1, (mx <? mn + 1) eqn:E2; simpl;
      rewrite ?Z.ltb_lt, ?Z.ltb_ge in *; lia.
  - intros e'. reflexivity.
Qed.

Lemma desired_image_count_clamped_witness :
  (0 <= 2 < u32_max /\ is_u32 0) /\
  desired_image_count (mkSurfaceCapabilities 2 0 (mkExtent2D 800 600)) = Ret 3.
Proof.
  split.
  - unfold is_u32, u32_max; split; lia.
  - destruct (desired_image_count_clamped (mkSurfaceCapabilities 2 0 (mkExtent2D 800 600)))
      as [H _];
      [unfold u32_max; simpl; lia | unfold is_u32, u32_max; simpl; lia |].
    rewrite H. reflexivity.
Defined.

Example surface_resolution_minimized :
  surface_resolution (mkSurfaceCapabilities 2 0 (mkExtent2D u32_max u32_max))
                     (mkPhysicalSize 0 0) = mkExtent2D 1 1.
Proof. reflexivity. Qed.



(** ** Memory-type search *)

Lemma land_pow2_eqb_0 (i b : Z) :
  0 <= i -> (Z.land (Z.shiftl 1 i) b =? 0) = negb (Z.testbit b i).
Proof.
  intros Hi. rewrite Z.shiftl_1_l.
  destruct (Z.testbit b i) eqn:Hb; simpl.
  - apply Z.eqb_neq. intros H0.
    assert (Ht : Z.testbit (Z.land (2 ^ i) b) i = true).
    { rewrite Z.land_spec, Z.pow2_bits_true by exact Hi. exact Hb. }
    rewrite H0, Z.testbit_0_l in Ht. discriminate.
  - apply Z.eqb_eq. apply Z.bits_inj_0. intros n.
    rewrite Z.land_spec.
    destruct (Z.eq_dec n i) as [->|Hne].
    + rewrite Hb. apply andb_false_r.
    + destruct (Z.neg_nonneg_cases n) as [Hn|Hn].
      * rewrite Z.testbit_neg_r by exact Hn. reflexivity.
      * rewrite Z.pow2_bits_false by lia. reflexivity.
Qed.

Definition type_qualifies (memory_req : MemoryRequirements) (flags i : Z)
  (t : MemoryType) : Prop :=
  Z.testbit (memory_type_bits memory_req) i = true /\
  Z.land (property_flags t) flags = flags.

Lemma find_enumerated_test (memory_req : MemoryRequirements) (flags i : Z) t :
  0 <= i ->
  (negb (Z.land (Z.shiftl 1 i) (memory_type_bits memory_req) =? 0)
   && (Z.land (property_flags t) flags =? flags) = true
   <-> type_qualifies memory_req flags i t).
Proof.
  intros Hi. unfold type_qualifies.
  rewrite land_pow2_eqb_0 by exact Hi. rewrite negb_involutive.
  rewrite andb_true_iff, Z.eqb_eq. reflexivity.
Qed.

Lemma find_enumerated_none memory_req flags (l : list MemoryType) : forall k,
  0 <= k ->
  (find_enumerated memory_req flags k l = None <->
   forall j, (j < List.length l)%nat ->
             ~ type_qualifies memory_req flags (k + Z.of_nat j) (nth j l (mkMemoryType 0 0))).
Proof.
  induction l as [|t l IH]; intros k Hk; simpl.
  - split; [intros _ j Hj; lia | reflexivity].
  - pose proof (find_enumerated_test memory_req flags k t Hk) as Ht.
    destruct (negb _ && _) eqn:E.
    + split; [discriminate|]. intros Hall. exfalso.
      apply (Hall 0%nat); [lia|]. rewrite Z.add_0_r. apply Ht. reflexivity.
    + rewrite (IH (k + 1)) by lia. split.
      * intros Hrest [|j] Hj.
        -- rewrite Z.add_0_r. intros Hq. apply Ht in Hq. congruence.
        -- specialize (Hrest j ltac:(lia)).
           replace (k + Z.of_nat (S j)) with (k + 1 + Z.of_nat j) by lia. exact Hrest.
      * intros Hall j Hj. specialize (Hall (S j) ltac:(lia)).
        replace (k + 1 + Z.of_nat j) with (k + Z.of_nat (S j)) by lia. exact Hall.
Qed.

Lemma find_enumerated_some memory_req flags (l : list MemoryType) : forall k i,
  0 <= k ->
  find_enumerated memory_req flags k l = Some i ->
  k <= i < k + Z.of_nat (List.length l)
  /\ type_qualifies memory_req flags i (nth (Z.to_nat (i - k)) l (mkMemoryType 0 0))
  /\ (forall j, k <= j < i ->
        ~ type_qualifies memory_req flags j (nth (Z.to_nat (j - k)) l (mkMemoryType 0 0))).
Proof.
  induction l as [|t l IH]; intros k i Hk; simpl; [discriminate|].
  pose proof (find_enumerated_test memory_req flags k t Hk) as Ht.
  destruct (negb _ && _) eqn:E.
  - intros Hs. injection Hs as <-. rewrite Z.sub_diag. simpl.
    split; [lia|]. split; [apply Ht; reflexivity|]. intros j Hj. lia.
  - intros Hs. destruct (IH (k + 1) i ltac:(lia) Hs) as (Hr & Hq & Hlt).
    split; [lia|]. split.
    + replace (Z.to_nat (i - k)) with (S (Z.to_nat (i - (k + 1)))) by lia. exact Hq.
    + intros j Hj. destruct (Z.eq_dec j k) as [->|Hne].
      * rewrite Z.sub_diag. simpl. intros Hq'. apply Ht in Hq'. congruence.
      * replace (Z.to_nat (j - k)) with (S (Z.to_nat (j - (k + 1)))) by lia.
        apply Hlt. lia.
Qed.

Lemma qualifies_firstn memory_req memory_prop flags i :
  0 <= i < memory_type_count memory_prop ->
  type_qualifies memory_req flags i
    (nth (Z.to_nat i) (firstn (Z.to_nat (memory_type_count memory_prop))
                          (memory_types memory_prop)) (mkMemoryType 0 0))
  <-> memory_type_qualifies memory_req memory_prop flags i.
Proof.
  intros Hi. rewrite nth_firstn.
  replace (Z.to_nat i <? Z.to_nat (memory_type_count memory_prop))%nat with true
    by (symmetry; apply Nat.ltb_lt; lia).
  reflexivity.
Qed.

(** Claim C10: for a memory-property table whose [memory_type_count] is at
    most the 32 entries of [memory_types], [find_memorytype_index] returns
    [None] exactly when no index below [memory_type_count] has its mask bit
    set and all requested property flags, and otherwise [Some] of the
    smallest such index. *)
Theorem find_memorytype_index_first_match (memory_req : MemoryRequirements)
  (memory_prop : PhysicalDeviceMemoryProperties) (flags : Z)
  (Harr : List.length (memory_types memory_prop) = 32%nat)
  (Hcount : 0 <= memory_type_count memory_prop <= 32) :
  exists result,
    find_memorytype_index memory_req memory_prop flags = Ret result
    /\ (result = None <->
        forall i, 0 <= i < memory_type_count memory_prop ->
                  ~ memory_type_qualifies memory_req memory_prop flags i)
    /\ (forall i, result = Some i ->
          0 <= i < memory_type_count memory_prop
          /\ memory_type_qualifies memory_req memory_prop flags i
          /\ forall j, 0 <= j < i ->
                       ~ memory_type_qualifies memory_req memory_prop flags j).
Proof.
  unfold find_memorytype_index, slice_to.
  rewrite Harr.
  replace (Z.of_nat 32 <? memory_type_count memory_prop) with false
    by (symmetry; apply Z.ltb_ge; lia).
  set (types := firstn (Z.to_nat (memory_type_count memory_prop))
                       (memory_types memory_prop)).
  assert (Hlen : List.length types = Z.to_nat (memory_type_count memory_prop)).
  { unfold types. rewrite length_firstn, Harr. lia. }
  eexists. split; [reflexivity|]. split.
  - rewrite (find_enumerated_none memory_req flags types 0) by lia. split.
    + intros Hall i Hi Hq. apply (Hall (Z.to_nat i)); [lia|].
      rewrite Z.add_0_l, Z2Nat.id by lia. apply qualifies_firstn; [lia|].
      exact Hq.
    + intros Hall j Hj Hq. rewrite Z.add_0_l in Hq.
      apply (Hall (Z.of_nat j)); [lia|]. apply qualifies_firstn; [lia|].
      rewrite Nat2Z.id. exact Hq.
  - intros i Hs.
    destruct (find_enumerated_some memory_req flags types 0 i ltac:(lia) Hs)
      as (Hr & Hq & Hlt).
    rewrite Z.sub_0_r in Hq. split; [lia|]. split.
    + apply qualifies_firstn; [lia|]. exact Hq.
    + intros j Hj. specialize (Hlt j Hj). rewrite Z.sub_0_r in Hlt.
      rewrite <- qualifies_firstn by lia. exact Hlt.
Qed.

Lemma find_memorytype_index_first_match_witness :
  List.length (memory_types sample_memory_properties) = 32%nat
  /\ 0 <= memory_type_count sample_memory_properties <= 32
  /\ find_memorytype_index sample_memory_reqs sample_memory_properties
       (Z.lor Vk.MEMORY_PROPERTY_HOST_VISIBLE Vk.MEMORY_PROPERTY_HOST_COHERENT)
     = Ret (Some 1).
Proof.
  split; [reflexivity|]. split; [simpl; lia|].
  destruct (find_memorytype_index_first_match sample_memory_reqs sample_memory_properties
              (Z.lor Vk.MEMORY_PROPERTY_HOST_VISIBLE Vk.MEMORY_PROPERTY_HOST_COHERENT)
              eq_refl ltac:(simpl; lia)) as (result & Hr & _ & _).
  rewrite Hr. vm_compute in Hr. rewrite <- Hr. reflexivity.
Defined.

(** ** Synchronized command submission *)

Definition no_submit (c : vk_call) : bool :=
  match c with QueueSubmit _ _ _ _ _ _ => false | _ => true end.

Lemma exec_trace_calls s calls tr s' :
  exec s calls tr s' -> map fst tr = calls.
Proof. induction 1; simpl; congruence. Qed.

Lemma exec_app s calls tr s' :
  exec s calls tr s' -> forall a b, calls = a ++ b ->
  exists tr1 tr2 sm, exec s a tr1 sm /\ exec sm b tr2 s' /\ tr = tr1 ++ tr2.
Proof.
  induction 1 as [s|s f calls tr s' Hp Hex IH|s c s1 calls tr s' Hs Hex IH];
    intros a b Heq.
  - destruct a; [|discriminate]. simpl in Heq; subst.
    exists [], [], s. repeat split; constructor.
  - destruct a as [|c a].
    + exists [], tr, s. split; [constructor|]. split; [|reflexivity].
      simpl in Heq; subst. eapply exec_gpu; eauto.
    + destruct (IH (c :: a) b Heq) as (tr1 & tr2 & sm & H1 & H2 & ->).
      exists tr1, tr2, sm. split; [eapply exec_gpu; eauto|]. split; [exact H2|reflexivity].
  - destruct a as [|c' a].
    + exists [], ((c, s) :: tr), s. split; [constructor|]. split; [|reflexivity].
      simpl in Heq; subst. eapply exec_host; eauto.
    + injection Heq as -> Heq.
      destruct (IH a b Heq) as (tr1 & tr2 & sm & H1 & H2 & ->).
      exists ((c', s) :: tr1), tr2, sm. split; [eapply exec_host; eauto|].
      split; [exact H2|reflexivity].
Qed.

Lemma exec_single s c tr sm :
  exec s [c] tr sm ->
  exists s0 s1, exec s [] [] s0 /\ host_step s0 c = Some s1 /\ exec s1 [] [] sm
                /\ tr = [(c, s0)].
Proof.
  intros H. remember [c] as cs eqn:Ecs.
  induction H as [s|s f calls tr s' Hp Hex IH|s c' s1 calls tr s' Hs Hex IH].
  - discriminate.
  - destruct (IH Ecs) as (s0 & s1 & H0 & H1 & H2 & ->).
    exists s0, s1. repeat split; auto. eapply exec_gpu; eauto.
  - injection Ecs as -> ->.
    assert (tr = []) as -> by (apply exec_trace_calls in Hex; destruct tr; [reflexivity|];
                               discriminate).
    exists s, s1. repeat split; auto. constructor.
Qed.

Lemma host_step_no_submit s c s1 f :
  no_submit c = true -> host_step s c = Some s1 ->
  pending s1 = pending s /\ (signaled s f = false -> signaled s1 f = false).
Proof.
  destruct c; simpl; intros Hns Hs; try discriminate;
    try (injection Hs as <-; split; auto; fail).
  - destruct (forallb _ _); [injection Hs as <-; auto | discriminate].
  - injection Hs as <-. simpl. split; [reflexivity|]. intros Hf.
    destruct (existsb _ _); auto.
Qed.

(** Without submissions, a fence with nothing pending stays so, and stays
    unsignaled once unsignaled; every call is issued with it not pending. *)
Lemma exec_quiet f s calls tr s' :
  exec s calls tr s' -> forallb no_submit calls = true -> pending s f = false ->
  pending s' f = false /\ (signaled s f = false -> signaled s' f = false)
  /\ (forall c st, In (c, st) tr -> pending st f = false).
Proof.
  induction 1 as [s|s g calls tr s' Hp Hex IH|s c s1 calls tr s' Hs Hex IH];
    intros Hns Hpf.
  - repeat split; auto. intros c st [].
  - assert (g <> f) by congruence.
    destruct IH as (H1 & H2 & H3); auto.
    + simpl. unfold upd. apply Z.eqb_neq in H. rewrite Z.eqb_sym, H. exact Hpf.
    + repeat split; auto. intros Hsf. apply H2. simpl. unfold upd.
      apply Z.eqb_neq in H. rewrite Z.eqb_sym, H. exact Hsf.
  - simpl in Hns. apply andb_true_iff in Hns as [Hc Hns].
    destruct (host_step_no_submit s c s1 f Hc Hs) as [Hp Hsg].
    destruct IH as (H1 & H2 & H3); auto.
    + rewrite Hp. exact Hpf.
    + repeat split; auto. intros c' st [Heq|Hin]; [injection Heq as <- <-; exact Hpf|].
      apply H3 with c'. exact Hin.
Qed.

Lemma exec_fences_ok s calls tr s' :
  exec s calls tr s' -> forallb no_submit calls = true -> fences_ok s -> fences_ok s'.
Proof.
  induction 1 as [s|s g calls tr s' Hp Hex IH|s c s1 calls tr s' Hs Hex IH];
    intros Hns Hok; auto.
  - apply IH; auto. intros f. simpl. unfold upd.
    destruct (f =? g); [discriminate|]. apply Hok.
  - simpl in Hns. apply andb_true_iff in Hns as [Hc Hns]. apply IH; auto.
    intros f Hpf. destruct (host_step_no_submit s c s1 f Hc Hs) as [Hp Hsg].
    apply Hsg. apply Hok. rewrite <- Hp. exact Hpf.
Qed.

Lemma record_submit_commandbuffer_shape queue cb fence wait_mask waits signals fn :
  record_submit_commandbuffer queue cb fence wait_mask waits signals fn =
  [WaitForFences [fence]] ++ ([ResetFences [fence]] ++
   (([ResetCommandBuffer cb Vk.COMMAND_BUFFER_RESET_RELEASE_RESOURCES;
      BeginCommandBuffer cb Vk.COMMAND_BUFFER_USAGE_ONE_TIME_SUBMIT]
     ++ map (Record cb) (fn cb) ++ [EndCommandBuffer cb])
    ++ [QueueSubmit queue waits wait_mask [cb] signals fence])).
Proof. unfold record_submit_commandbuffer. simpl. rewrite <- !app_assoc. reflexivity. Qed.

(** The copy in renderer.rs issues the same calls. *)
Lemma renderer_record_submit_commandbuffer_same cb fence queue wait_mask waits signals fn :
  RendererRs.record_submit_commandbuffer cb fence queue wait_mask waits signals fn =
  record_submit_commandbuffer queue cb fence wait_mask waits signals fn.
Proof. reflexivity. Qed.

(** Claim C4: every execution of [record_submit_commandbuffer], started with
    the fences in a consistent state (a fence with a submission in flight is
    unsignaled) and with the GPU free to complete work at any point, issues
    exactly: wait for the fence, reset the fence, reset the command buffer,
    begin it with ONE_TIME_SUBMIT, the recorded commands, end it, and submit it
    with the given wait semaphores, wait stage mask, signal semaphores and the
    fence.  Every call that resets or records the command buffer is issued
    while no submission guarded by its fence is in flight, and the fences are
    left consistent for the next execution. *)
Theorem record_submit_commandbuffer_protocol (s s' : FenceState)
  (queue cb fence : Z) (wait_mask waits signals : list Z) (fn : Z -> list DeviceCmd)
  (tr : list (vk_call * FenceState))
  (Hok : fences_ok s)
  (Hex : exec s (record_submit_commandbuffer queue cb fence wait_mask waits signals fn)
              tr s') :
  map fst tr =
    [WaitForFences [fence]; ResetFences [fence];
     ResetCommandBuffer cb Vk.COMMAND_BUFFER_RESET_RELEASE_RESOURCES;
     BeginCommandBuffer cb Vk.COMMAND_BUFFER_USAGE_ONE_TIME_SUBMIT]
    ++ map (Record cb) (fn cb)
    ++ [EndCommandBuffer cb; QueueSubmit queue waits wait_mask [cb] signals fence]
  /\ (forall c st, In (c, st) tr -> touches_cb cb c = true -> pending st fence = false)
  /\ fences_ok s'.
Proof.
  split; [apply exec_trace_calls in Hex; exact Hex|].
  rewrite record_submit_commandbuffer_shape in Hex.
  set (mid := [ResetCommandBuffer cb Vk.COMMAND_BUFFER_RESET_RELEASE_RESOURCES;
               BeginCommandBuffer cb Vk.COMMAND_BUFFER_USAGE_ONE_TIME_SUBMIT]
              ++ map (Record cb) (fn cb) ++ [EndCommandBuffer cb]) in Hex.
  assert (Hmid : forallb no_submit mid = true).
  { unfold mid. rewrite !forallb_app. simpl. clear.
    induction (fn cb) as [|x l IH]; [reflexivity | exact IH]. }
  (* wait for the fence *)
  destruct (exec_app _ _ _ _ Hex _ _ eq_refl) as (trW & tr1 & sW & HW & Hrest & ->).
  destruct (exec_single _ _ _ _ HW) as (w0 & w1 & Hw0 & Hw & Hw1 & ->).
  assert (Hok_w0 : fences_ok w0) by (eapply exec_fences_ok; eauto).
  simpl in Hw. destruct (signaled w0 fence) eqn:Hsig; [|discriminate].
  injection Hw as <-.
  assert (Hp_w0 : pending w0 fence = false).
  { destruct (pending w0 fence) eqn:E; [|reflexivity]. apply Hok_w0 in E. congruence. }
  destruct (exec_quiet fence _ _ _ _ Hw1 eq_refl Hp_w0) as (Hp_sW & _ & _).
  assert (Hok_sW : fences_ok sW) by (eapply exec_fences_ok; eauto).
  (* reset the fence *)
  destruct (exec_app _ _ _ _ Hrest _ _ eq_refl) as (trR & tr2 & sR & HR & Hrest2 & ->).
  destruct (exec_single _ _ _ _ HR) as (r0 & r1 & Hr0 & Hr & Hr1 & ->).
  destruct (exec_quiet fence _ _ _ _ Hr0 eq_refl Hp_sW) as (Hp_r0 & _ & _).
  simpl in Hr. injection Hr as <-.
  assert (Hsig_r1 : signaled {| signaled := fun x => if existsb (Z.eqb x) [fence]
                                                   then false else signaled r0 x;
                                pending := pending r0 |} fence = false).
  { simpl. rewrite Z.eqb_refl. reflexivity. }
  destruct (exec_quiet fence _ _ _ _ Hr1 eq_refl Hp_r0) as (Hp_sR & Hs_sR & _).
  specialize (Hs_sR Hsig_r1).
  assert (Hok_sR : fences_ok sR) by (eapply exec_fences_ok; [exact HR | reflexivity | exact Hok_sW]).
  (* reset, begin, record, end *)
  destruct (exec_app _ _ _ _ Hrest2 _ _ eq_refl) as (trM & trS & sM & HM & HS & ->).
  destruct (exec_quiet fence _ _ _ _ HM Hmid Hp_sR) as (Hp_sM & Hs_sM & Hin_mid).
  specialize (Hs_sM Hs_sR).
  assert (Hok_sM : fences_ok sM) by (eapply exec_fences_ok; eauto).
  (* submit *)
  destruct (exec_single _ _ _ _ HS) as (q0 & q1 & Hq0 & Hq & Hq1 & ->).
  destruct (exec_quiet fence _ _ _ _ Hq0 eq_refl Hp_sM) as (Hp_q0 & Hs_q0' & _).
  specialize (Hs_q0' Hs_sM).
  assert (Hok_q0 : fences_ok q0) by (eapply exec_fences_ok; eauto).
  simpl in Hq. injection Hq as <-.
  split.
  - intros c st Hin Htouch.
    rewrite !in_app_iff in Hin. simpl in Hin.
    destruct Hin as [[Heq|[]]|[[Heq|[]]|[Hin|[Heq|[]]]]];
      try (injection Heq as <- <-; discriminate).
    apply Hin_mid with c. exact Hin.
  - eapply exec_fences_ok; [exact Hq1 | reflexivity |].
    intros g. simpl. unfold upd. destruct (g =? fence) eqn:E.
    + intros _. apply Z.eqb_eq in E. subst g. exact Hs_q0'.
    + apply Hok_q0.
Qed.

Lemma record_submit_commandbuffer_protocol_witness :
  fences_ok initial_fences /\
  exists tr s',
    exec initial_fences
      (record_submit_commandbuffer 1 2 3 [Vk.PIPELINE_STAGE_COLOR_ATTACHMENT_OUTPUT] [4] [5]
         (fun cb => [CmdEndRendering])) tr s'
    /\ fences_ok s'.
Proof.
  assert (Hok : fences_ok initial_fences) by (intros f Hf; discriminate).
  assert (Hex : exists tr s',
    exec initial_fences
      (record_submit_commandbuffer 1 2 3 [Vk.PIPELINE_STAGE_COLOR_ATTACHMENT_OUTPUT] [4] [5]
         (fun cb => [CmdEndRendering])) tr s').
  { do 2 eexists. repeat (eapply exec_host; [reflexivity|]). apply exec_nil. }
  destruct Hex as (tr & s' & Hex).
  split; [exact Hok|]. exists tr, s'. split; [exact Hex|].
  exact (proj2 (proj2 (record_submit_commandbuffer_protocol _ _ _ _ _ _ _ _ _ _ Hok Hex))).
Defined.

(** ** Typed GPU buffer *)

(** Claim C5 (code defect): [write_data_direct] checks [data.len()], an
    element count, against [self.size], which [Buffer::new] sets to
    [size_of::<T>() * buffer_len] bytes.  A three-element [u32] buffer
    (12 bytes) accepts a 12-element slice and maps and copies all 12
    elements into it. *)
Theorem write_data_direct_compares_elements_to_bytes :
  exists b create_calls,
    sample_u32_buffer = Ret (b, create_calls)
    /\ size b = 12
    /\ write_data_direct b (repeat 0 12) sample_memory_reqs 12 =
         Ret [GetBufferMemoryRequirements 10; MapMemory 11 0 256;
              CopyToMapping 12 12; UnmapMemory 11]
    /\ (3 < List.length (repeat 0 12))%nat.
Proof.
  eexists; eexists. split; [vm_compute; reflexivity|].
  split; [reflexivity|]. split; [vm_compute; reflexivity|]. simpl. lia.
Qed.

(** What [write_data_direct] accepts, in general: the two memory-property
    flags and at most [size_of::<T>() * buffer_len] elements. *)
Lemma write_data_direct_accepts {T} (b : Buffer) (data : list T) reqs ptr :
  is_panic (write_data_direct b data reqs ptr) =
  negb (has_flags (memory_properties b) Vk.MEMORY_PROPERTY_HOST_VISIBLE
        && has_flags (memory_properties b) Vk.MEMORY_PROPERTY_HOST_COHERENT
        && (Z.of_nat (List.length data) <=? size b)).
Proof.
  unfold write_data_direct.
  destruct (has_flags _ Vk.MEMORY_PROPERTY_HOST_VISIBLE),
           (has_flags _ Vk.MEMORY_PROPERTY_HOST_COHERENT),
           (Z.of_nat (List.length data) <=? size b), (mapping b); reflexivity.
Qed.

(** Claim C6: [write_from_staging] panics exactly when the destination lacks
    TRANSFER_DST usage, the staging buffer lacks TRANSFER_SRC usage, or the
    staging buffer is larger than the destination; otherwise it runs the
    synchronized submission protocol with empty wait-mask, wait-semaphore and
    signal-semaphore lists, recording a single copy of [staging.size] bytes
    from the staging buffer into the destination. *)
Theorem write_from_staging_spec (self staging_buffer : Buffer)
  (command_buffer command_buffer_reuse_fence submit_queue : Z) :
  let accepted := has_flags (usage self) Vk.BUFFER_USAGE_TRANSFER_DST
                  && has_flags (usage staging_buffer) Vk.BUFFER_USAGE_TRANSFER_SRC
                  && (size staging_buffer <=? size self) in
  is_panic (write_from_staging self staging_buffer command_buffer
              command_buffer_reuse_fence submit_queue) = negb accepted
  /\ (accepted = true ->
      write_from_staging self staging_buffer command_buffer
        command_buffer_reuse_fence submit_queue =
      Ret (record_submit_commandbuffer submit_queue command_buffer
             command_buffer_reuse_fence [] [] []
             (fun cb => [CmdCopyBuffer (buffer staging_buffer) (buffer self)
                           [mkBufferCopy 0 0 (size staging_buffer)]]))).
Proof.
  intros accepted. unfold accepted, write_from_staging.
  destruct (has_flags (usage self) _), (has_flags (usage staging_buffer) _),
           (size staging_buffer <=? size self); simpl;
    split; try reflexivity; discriminate.
Qed.

(** Claim C7 (code defect): [Buffer::new] creates the buffer handle before
    allocating its memory, and [Buffer::cleanup] destroys the buffer handle
    first and frees the memory second, not in the reverse order; the sibling
    [IndexBufferComponents::cleanup] frees the memory first. *)
Theorem buffer_cleanup_destroys_buffer_first :
  exists b create_calls,
    sample_u32_buffer = Ret (b, create_calls)
    /\ create_calls = [CreateBuffer 10 12 Vk.BUFFER_USAGE_VERTEX_BUFFER;
                       GetBufferMemoryRequirements 10;
                       AllocateMemory 11 256 1; BindBufferMemory 10 11 0]
    /\ buffer_cleanup b = [DestroyBuffer 10; FreeMemory 11]
    /\ buffer_cleanup b <> [FreeMemory 11; DestroyBuffer 10]
    /\ index_buffer_components_cleanup 10 11 = [FreeMemory 11; DestroyBuffer 10].
Proof.
  eexists; eexists. split; [vm_compute; reflexivity|].
  split; [reflexivity|]. split; [reflexivity|]. split; [discriminate|reflexivity].
Qed.

(** ** Descriptor and uniform set *)

Lemma mbind_ret {A B} (m : M A) (k : A -> M B) d r :
  mbind m k d = Ret r -> exists a d1, m d = Ret (a, d1) /\ k a d1 = Ret r.
Proof.
  unfold mbind. destruct (m d) as [[a d1]|e]; [|discriminate].
  intros H. exists a, d1. split; [reflexivity|exact H].
Qed.

(** A computation that only appends to the call log. *)
Definition grows {A} (m : M A) : Prop :=
  forall d a d', m d = Ret (a, d') -> exists suf, calls d' = calls d ++ suf.

Lemma grows_ret {A} (a : A) : grows (mret a).
Proof. intros d a' d' H. injection H as _ <-. exists []. rewrite app_nil_r. reflexivity. Qed.

Lemma grows_panic {A} msg : grows (@mpanic A msg).
Proof. intros d a d' H. discriminate. Qed.

Lemma grows_fresh : grows fresh.
Proof. intros d a d' H. injection H as _ <-. exists []. simpl. rewrite app_nil_r. reflexivity. Qed.

Lemma grows_emit c : grows (emit c).
Proof. intros d a d' H. injection H as _ <-. exists [c]. reflexivity. Qed.

Lemma grows_bind {A B} (m : M A) (k : A -> M B) :
  grows m -> (forall a, grows (k a)) -> grows (mbind m k).
Proof.
  intros Hm Hk d b d' H. apply mbind_ret in H as (a & d1 & H1 & H2).
  destruct (Hm _ _ _ H1) as [s1 E1]. destruct (Hk a _ _ _ H2) as [s2 E2].
  exists (s1 ++ s2). rewrite E2, E1, app_assoc. reflexivity.
Qed.

Create HintDb grows_db.
#[export] Hint Resolve grows_ret grows_panic grows_fresh grows_emit : grows_db.

Ltac solve_grows :=
  repeat match goal with
  | |- grows (mbind _ _) => apply grows_bind; [|intro]
  | |- grows (match ?x with _ => _ end) => destruct x
  | |- forall _, _ => intro
  | _ => solve [auto with grows_db]
  end.

Lemma create_uniform_buffer_grows props reqs : grows (create_uniform_buffer props reqs).
Proof. unfold create_uniform_buffer. solve_grows. Qed.

Lemma fresh_many_length n : forall d hs d', fresh_many n d = Ret (hs, d') -> List.length hs = n.
Proof.
  induction n as [|n IH]; simpl; intros d hs d' H.
  - injection H as <- _. reflexivity.
  - apply mbind_ret in H as (h & d1 & _ & H).
    apply mbind_ret in H as (hs' & d2 & H1 & H).
    injection H as <- _. simpl. f_equal. eapply IH; eauto.
Qed.

Lemma fresh_many_grows n : grows (fresh_many n).
Proof. induction n; simpl; solve_grows. Qed.

Lemma uniform_loop_lengths props reqs k : forall bufs mems maps d bufs' mems' maps' d',
  uniform_loop props reqs k bufs mems maps d = Ret ((bufs', mems', maps'), d') ->
  List.length bufs' = (List.length bufs + k)%nat
  /\ List.length mems' = (List.length mems + k)%nat
  /\ List.length maps' = (List.length maps + k)%nat.
Proof.
  induction k as [|k IH]; simpl; intros bufs mems maps d bufs' mems' maps' d' H.
  - injection H as <- <- <- _. lia.
  - apply mbind_ret in H as ([[b m] p] & d1 & _ & H).
    destruct (IH _ _ _ _ _ _ _ _ H) as (H1 & H2 & H3).
    rewrite length_app in H1, H2, H3. simpl in *. lia.
Qed.

Lemma uniform_loop_grows props reqs k : forall bufs mems maps,
  grows (uniform_loop props reqs k bufs mems maps).
Proof.
  induction k as [|k IH]; intros; simpl; [apply grows_ret|].
  apply grows_bind; [apply create_uniform_buffer_grows|].
  intros [[b m] p]. apply IH.
Qed.

Definition descriptor_write (sb : Z * Z) : vk_call :=
  UpdateDescriptorSet (fst sb) 0 Vk.DESCRIPTOR_TYPE_UNIFORM_BUFFER 1 (snd sb) 0 ubo_size.

Lemma skipn_nth_error_cons {A} (l : list A) i b :
  nth_error l i = Some b -> skipn i l = b :: skipn (S i) l.
Proof.
  revert i; induction l as [|x l IH]; intros [|i] H; simpl in *; try discriminate.
  - injection H as ->. reflexivity.
  - apply IH. exact H.
Qed.

Lemma write_descriptor_sets_calls uniform_buffers sets : forall i d u d',
  (i + List.length sets <= List.length uniform_buffers)%nat ->
  write_descriptor_sets i sets uniform_buffers d = Ret (u, d') ->
  calls d' = calls d ++ map descriptor_write (combine sets (skipn i uniform_buffers)).
Proof.
  induction sets as [|s rest IH]; simpl; intros i d u d' Hlen H.
  - injection H as _ <-. rewrite app_nil_r. reflexivity.
  - destruct (nth_error uniform_buffers i) as [b|] eqn:Hb.
    + apply mbind_ret in H as (t & d1 & H1 & H).
      injection H1 as _ <-.
      rewrite (IH (S i) _ _ _ ltac:(lia) H).
      rewrite (skipn_nth_error_cons _ _ _ Hb). simpl.
      rewrite <- app_assoc. reflexivity.
    + apply nth_error_None in Hb. lia.
Qed.

(** Claim C8: when [DescriptorComponents::new] completes for a present-image
    count [n], it holds [n] uniform buffers, [n] memories, [n] persistent
    mappings and [n] descriptor sets; its last device calls write descriptor
    set [i] at binding 0 to uniform buffer [i], for every [i], and the set
    layout it created declares binding 0 as a uniform buffer for the vertex
    stage. *)
Theorem descriptor_components_new_per_image
  (props : PhysicalDeviceMemoryProperties) (reqs : MemoryRequirements)
  (n : Z) (d d' : Dev) (comps : DescriptorComponents)
  (Hn : 0 <= n)
  (Hrun : descriptor_components_new props reqs n d = Ret (comps, d')) :
  Z.of_nat (List.length (uniform_buffers comps)) = n
  /\ Z.of_nat (List.length (uniform_buffer_memories comps)) = n
  /\ (exists maps, uniform_buffer_mappings comps = Some maps
                   /\ Z.of_nat (List.length maps) = n)
  /\ Z.of_nat (List.length (descriptor_sets comps)) = n
  /\ (exists pre, calls d' = pre ++ map descriptor_write
                                  (combine (descriptor_sets comps) (uniform_buffers comps)))
  /\ In (CreateDescriptorSetLayout (descriptor_set_layout comps) 0
          Vk.DESCRIPTOR_TYPE_UNIFORM_BUFFER 1 Vk.SHADER_STAGE_VERTEX) (calls d').
Proof.
  unfold descriptor_components_new in Hrun.
  apply mbind_ret in Hrun as ([[ub um] mp] & d1 & Hloop & Hrun).
  apply mbind_ret in Hrun as (layout & d2 & Hl & Hrun).
  apply mbind_ret in Hrun as (t1 & d3 & He1 & Hrun).
  apply mbind_ret in Hrun as (pool & d4 & Hp & Hrun).
  apply mbind_ret in Hrun as (t2 & d5 & He2 & Hrun).
  apply mbind_ret in Hrun as (sets & d6 & Hs & Hrun).
  apply mbind_ret in Hrun as (t3 & d7 & He3 & Hrun).
  apply mbind_ret in Hrun as (t4 & d8 & Hw & Hrun).
  unfold mret in Hrun. injection Hrun as <- <-. simpl.
  destruct (uniform_loop_lengths _ _ _ _ _ _ _ _ _ _ _ Hloop) as (L1 & L2 & L3).
  simpl in L1, L2, L3.
  apply fresh_many_length in Hs as Ls. rewrite repeat_length in Ls.
  assert (Hcalls : calls d8 = calls d7 ++ map descriptor_write (combine sets ub)).
  { apply (write_descriptor_sets_calls ub sets 0 d7 t4 d8); [lia|exact Hw]. }
  repeat split; try lia.
  - exists mp. split; [reflexivity|lia].
  - exists (calls d7). exact Hcalls.
  - unfold fresh in Hl, Hp. injection Hl as <- <-. injection Hp as <- <-.
    unfold emit in He1, He2, He3. injection He1 as _ <-. injection He2 as _ <-.
    injection He3 as _ <-. simpl in *.
    destruct (fresh_many_grows _ _ _ _ Hs) as [suf Hsuf]. simpl in Hsuf.
    rewrite Hcalls, Hsuf. simpl. rewrite <- !app_assoc.
    apply in_or_app. right. simpl. left. reflexivity.
Qed.

Lemma descriptor_components_new_per_image_witness :
  0 <= 3 /\
  exists comps d',
    descriptor_components_new sample_memory_properties sample_memory_reqs 3
      (mkDev 100 []) = Ret (comps, d')
    /\ Z.of_nat (List.length (descriptor_sets comps)) = 3
    /\ Z.of_nat (List.length (uniform_buffers comps)) = 3.
Proof.
  destruct (descriptor_components_new sample_memory_properties sample_memory_reqs 3
              (mkDev 100 [])) as [[comps d']|msg] eqn:Hrun;
    [|vm_compute in Hrun; discriminate].
  split; [lia|]. exists comps, d'. split; [reflexivity|].
  destruct (descriptor_components_new_per_image _ _ 3 _ _ _ ltac:(lia) Hrun)
    as (H1 & _ & _ & H4 & _).
  split; [exact H4 | exact H1].
Defined.

(** ** Frame loop *)

(** In the [draw_frame] of src/src/renderer.rs, every acquire result other
    than [SUCCESS] and [SUBOPTIMAL_KHR], out-of-date included, panics on
    [unwrap()] before anything is recorded, submitted or presented; a [SUCCESS] or [SUBOPTIMAL_KHR]
    acquire of an existing image, followed by a successful present, acquires,
    runs the submission protocol on the draw command buffer and presents,
    whether or not the acquire was suboptimal. *)
Theorem draw_frame_acquire_outcomes (r : Renderer)
  (acquire_code acquired_index present_code : Z) :
  (acquire_code <> VkResult.SUCCESS -> acquire_code <> VkResult.SUBOPTIMAL_KHR ->
     draw_frame r acquire_code acquired_index present_code
       = Panic "called `Result::unwrap()` on an `Err` value")
  /\ (forall color_view,
        (acquire_code = VkResult.SUCCESS \/ acquire_code = VkResult.SUBOPTIMAL_KHR) ->
        nth_error (present_image_views r) (Z.to_nat acquired_index) = Some color_view ->
        (present_code = VkResult.SUCCESS \/ present_code = VkResult.SUBOPTIMAL_KHR) ->
        draw_frame r acquire_code acquired_index present_code =
        Ret ([AcquireNextImage (swapchain r) u64_max (present_complete_semaphore r) 0]
             ++ record_submit_commandbuffer (present_queue r) (draw_command_buffer r)
                  (draw_commands_reuse_fence r)
                  [Vk.PIPELINE_STAGE_COLOR_ATTACHMENT_OUTPUT]
                  [present_complete_semaphore r] [rendering_complete_semaphore r]
                  (fun _ => [CmdBeginRendering color_view (depth_image_view r);
                             CmdSetScissor 0 (scissors r);
                             CmdBindVertexBuffers 0 [vertex_input_buffer r] [0];
                             CmdBindIndexBuffer (index_buffer r) 0 Vk.INDEX_TYPE_UINT32;
                             CmdDrawIndexed INDICES_len 1 0 0 1;
                             CmdEndRendering])
             ++ [QueuePresent (present_queue r) [rendering_complete_semaphore r]
                   [swapchain r] [acquired_index]])).
Proof.
  unfold draw_frame, ash_acquire_next_image, ash_queue_present. split.
  - intros H1 H2. apply Z.eqb_neq in H1, H2. rewrite H1, H2. reflexivity.
  - intros color_view Hacq Hview Hpres.
    assert (Hp : exists sub, (if present_code =? VkResult.SUCCESS then inl false
                  else if present_code =? VkResult.SUBOPTIMAL_KHR then inl true
                  else inr present_code) = @inl bool Z sub).
    { destruct Hpres as [->| ->]; [exists false | exists true]; reflexivity. }
    destruct Hp as [sub Hp].
    destruct Hacq as [->| ->]; simpl; rewrite Hview, Hp; reflexivity.
Qed.

(** ** Camera controller *)

(** Claim C9 (refuted): after [update_camera] the mouse deltas are zero but a
    held movement flag is still set: [update_camera] does not clear
    [forward_pressed]. *)
Lemma update_camera_keeps_forward_pressed :
  forward_pressed (fst (update_camera sample_controller sample_camera)) = true
  /\ mouse_delta_x (fst (update_camera sample_controller sample_camera)) = 0
  /\ mouse_delta_y (fst (update_camera sample_controller sample_camera)) = 0.
Proof. repeat split; reflexivity. Qed.

(** Claim C9 (amended): for any float arithmetic, [update_camera] moves the
    position by [speed] along the forward vector (forward/backward flags) and
    along [forward x (0,-1,0)] (left/right flags), in that order, adds the
    mouse deltas times the sensitivity to [theta] and [phi], and zeroes the
    two mouse deltas; the movement flags, speed and sensitivity are left as
    they were, and the other camera fields are unchanged. *)
Theorem update_camera_spec {F : Type} `{FloatOps F}
  (ctrl : CameraController F) (cam : Camera F) :
  let '(ctrl', cam') := update_camera ctrl cam in
  let fwd := forward cam in
  let right := vcross fwd neg_y_axis in
  let p1 := if forward_pressed ctrl then vadd (position cam) (vscale fwd (speed ctrl))
            else position cam in
  let p2 := if backward_pressed ctrl then vsub p1 (vscale fwd (speed ctrl)) else p1 in
  let p3 := if left_pressed ctrl then vsub p2 (vscale right (speed ctrl)) else p2 in
  let p4 := if right_pressed ctrl then vadd p3 (vscale right (speed ctrl)) else p3 in
  position cam' = p4
  /\ theta cam' = fadd (theta cam) (fmul (mouse_delta_x ctrl) (mouse_sens ctrl))
  /\ phi cam' = fadd (phi cam) (fmul (mouse_delta_y ctrl) (mouse_sens ctrl))
  /\ up cam' = up cam /\ fovy cam' = fovy cam /\ znear cam' = znear cam
  /\ zfar cam' = zfar cam
  /\ mouse_delta_x ctrl' = f_zero /\ mouse_delta_y ctrl' = f_zero
  /\ forward_pressed ctrl' = forward_pressed ctrl
  /\ backward_pressed ctrl' = backward_pressed ctrl
  /\ left_pressed ctrl' = left_pressed ctrl
  /\ right_pressed ctrl' = right_pressed ctrl
  /\ speed ctrl' = speed ctrl /\ mouse_sens ctrl' = mouse_sens ctrl.
Proof.
  destruct ctrl as [sp sens dx dy fp bp lp rp].
  destruct cam as [pos ph th u fy zn zf]. simpl.
  destruct fp, bp, lp, rp; simpl; repeat split.
Qed.

(** * Further properties of the code *)

(** ** Present mode *)

Lemma find_mailbox (modes : list Z) :
  find (fun mode => mode =? PresentMode.MAILBOX) modes =
  if existsb (Z.eqb PresentMode.MAILBOX) modes then Some PresentMode.MAILBOX else None.
Proof.
  induction modes as [|m modes IH]; cbn [find existsb]; [reflexivity|].
  destruct (m =? PresentMode.MAILBOX) eqn:E.
  - apply Z.eqb_eq in E. subst m. reflexivity.
  - rewrite Z.eqb_sym, E. exact IH.
Qed.

(** The swapchain's present mode is MAILBOX when the surface offers it,
    wherever it appears in the list, and FIFO otherwise: no other mode is
    ever chosen. *)
Theorem select_present_mode_mailbox_or_fifo (present_modes : list Z) :
  select_present_mode present_modes =
    (if existsb (Z.eqb PresentMode.MAILBOX) present_modes
     then PresentMode.MAILBOX else PresentMode.FIFO)
  /\ (select_present_mode present_modes = PresentMode.MAILBOX
      <-> In PresentMode.MAILBOX present_modes).
Proof.
  unfold select_present_mode. rewrite find_mailbox.
  assert (Hex : existsb (Z.eqb PresentMode.MAILBOX) present_modes = true
                <-> In PresentMode.MAILBOX present_modes).
  { rewrite existsb_exists. split.
    - intros (x & Hin & Hx). apply Z.eqb_eq in Hx. subst x. exact Hin.
    - intros Hin. exists PresentMode.MAILBOX. split; [exact Hin | apply Z.eqb_refl]. }
  destruct (existsb _ _) eqn:E; (split; [reflexivity|]).
  - split; [intros _; apply Hex; reflexivity | reflexivity].
  - split; [discriminate|]. intros Hin. apply Hex in Hin. discriminate.
Qed.

(** ** Swapchain image count *)

(** For [u32] capabilities, the desired image count panics exactly when
    [min_image_count] is [u32::MAX]; otherwise it is a nonzero [u32]. *)
Theorem desired_image_count_nonzero (caps : SurfaceCapabilitiesKHR)
  (Hmin : is_u32 (min_image_count caps)) (Hmax : is_u32 (max_image_count caps)) :
  (is_panic (desired_image_count caps) = true <-> min_image_count caps = u32_max)
  /\ (forall n, desired_image_count caps = Ret n -> 1 <= n <= u32_max).
Proof.
  unfold is_u32 in *. unfold desired_image_count.
  destruct (u32_max <? min_image_count caps + 1) eqn:E.
  - apply Z.ltb_lt in E. split; [split; [intros _; lia | reflexivity]|].
    intros n Hn. discriminate.
  - apply Z.ltb_ge in E.
    destruct ((0 <? max_image_count caps) && (max_image_count caps <? min_image_count caps + 1))
      eqn:E2.
    + apply andb_true_iff in E2 as [E2 _]. apply Z.ltb_lt in E2.
      split; [split; [discriminate | intros; lia]|].
      intros n Hn. injection Hn as <-. lia.
    + split; [split; [discriminate | intros; lia]|].
      intros n Hn. injection Hn as <-. lia.
Qed.

Lemma desired_image_count_nonzero_witness :
  is_u32 u32_max /\ is_u32 0 /\
  is_panic (desired_image_count (mkSurfaceCapabilities u32_max 0 (mkExtent2D 1 1))) = true.
Proof.
  assert (H1 : is_u32 u32_max) by (unfold is_u32, u32_max; lia).
  assert (H2 : is_u32 0) by (unfold is_u32, u32_max; lia).
  split; [exact H1|]. split; [exact H2|].
  apply (proj1 (desired_image_count_nonzero (mkSurfaceCapabilities u32_max 0 (mkExtent2D 1 1))
                  H1 H2)).
  reflexivity.
Defined.

(** ** Memory-type search bounds *)

Lemma find_enumerated_bound memory_req flags (l : list MemoryType) : forall k i,
  find_enumerated memory_req flags k l = Some i -> k <= i < k + Z.of_nat (List.length l).
Proof.
  induction l as [|t l IH]; intros k i; simpl; [discriminate|].
  destruct (negb _ && _).
  - intros H. injection H as <-. lia.
  - intros H. specialize (IH _ _ H). lia.
Qed.

(** [find_memorytype_index] panics exactly when [memory_type_count] exceeds
    the length of the [memory_types] array, and an index it returns is below
    both [memory_type_count] and that length, so it always names a valid,
    counted memory type. *)
Theorem find_memorytype_index_in_bounds (memory_req : MemoryRequirements)
  (memory_prop : PhysicalDeviceMemoryProperties) (flags : Z) :
  (is_panic (find_memorytype_index memory_req memory_prop flags) = true
   <-> Z.of_nat (List.length (memory_types memory_prop)) < memory_type_count memory_prop)
  /\ (forall i, find_memorytype_index memory_req memory_prop flags = Ret (Some i) ->
        0 <= i < memory_type_count memory_prop
        /\ i < Z.of_nat (List.length (memory_types memory_prop))).
Proof.
  unfold find_memorytype_index, slice_to.
  destruct (Z.of_nat (List.length (memory_types memory_prop)) <? memory_type_count memory_prop)
    eqn:E.
  - apply Z.ltb_lt in E. split; [split; [intros _; exact E | reflexivity]|].
    intros i H. discriminate.
  - apply Z.ltb_ge in E. split; [split; [discriminate | lia]|].
    intros i H. injection H as H.
    apply find_enumerated_bound in H.
    rewrite length_firstn in H. lia.
Qed.

Lemma find_memorytype_index_in_bounds_witness :
  find_memorytype_index sample_memory_reqs sample_memory_properties
    Vk.MEMORY_PROPERTY_DEVICE_LOCAL = Ret (Some 2)
  /\ 0 <= 2 < memory_type_count sample_memory_properties.
Proof.
  assert (H : find_memorytype_index sample_memory_reqs sample_memory_properties
                Vk.MEMORY_PROPERTY_DEVICE_LOCAL = Ret (Some 2)) by (vm_compute; reflexivity).
  split; [exact H|].
  exact (proj1 (proj2 (find_memorytype_index_in_bounds _ _ _) 2 H)).
Defined.

(** ** Typed buffer: creation composed with writes *)

Lemma buffer_new_fields (size_of_T : Z) props usage memory_properties buffer_len
  (persistent_mapping : bool) new_buffer new_memory data_ptr reqs b create_calls :
  buffer_new size_of_T props usage memory_properties buffer_len persistent_mapping
    new_buffer new_memory data_ptr reqs = Ret (b, create_calls) ->
  b = mkBuffer new_buffer new_memory (size_of_T * buffer_len) usage memory_properties
        (if persistent_mapping then Some data_ptr else None)
  /\ exists memory_type_index,
       find_memorytype_index reqs props memory_properties = Ret (Some memory_type_index)
       /\ create_calls =
            [CreateBuffer new_buffer (size_of_T * buffer_len) usage;
             GetBufferMemoryRequirements new_buffer;
             AllocateMemory new_memory (req_size reqs) memory_type_index;
             BindBufferMemory new_buffer new_memory 0]
            ++ (if persistent_mapping then [MapMemory new_memory 0 (req_size reqs)] else []).
Proof.
  unfold buffer_new.
  destruct (usize_max <? size_of_T * buffer_len); [discriminate|].
  destruct (find_memorytype_index reqs props memory_properties) as [[i|]|m];
    try discriminate.
  destruct persistent_mapping; intros H; injection H as <- <-;
    (split; [reflexivity | exists i; split; reflexivity]).
Qed.



(** Two buffers made by [Buffer::new] for the same element type, the
    destination with TRANSFER_DST usage and the staging buffer with
    TRANSFER_SRC usage: [write_from_staging] accepts the pair whenever the
    staging buffer has no more elements than the destination, and then copies
    the whole staging buffer ([size_of::<T>() * len] bytes) from its handle
    to the destination's through the submission protocol; with more elements
    in the staging buffer it panics. *)
Theorem buffer_new_write_from_staging (size_of_T : Z)
  (props : PhysicalDeviceMemoryProperties)
  (dst_usage dst_properties dst_len : Z) (dst_persistent : bool)
  (dst_buffer dst_memory dst_ptr : Z) (dst_reqs : MemoryRequirements)
  (dst : Buffer) (dst_calls : list vk_call)
  (stg_usage stg_properties stg_len : Z) (stg_persistent : bool)
  (stg_buffer stg_memory stg_ptr : Z) (stg_reqs : MemoryRequirements)
  (stg : Buffer) (stg_calls : list vk_call)
  (command_buffer fence queue : Z)
  (Hdst : buffer_new size_of_T props dst_usage dst_properties dst_len dst_persistent
            dst_buffer dst_memory dst_ptr dst_reqs = Ret (dst, dst_calls))
  (Hstg : buffer_new size_of_T props stg_usage stg_properties stg_len stg_persistent
            stg_buffer stg_memory stg_ptr stg_reqs = Ret (stg, stg_calls))
  (Hdst_usage : has_flags dst_usage Vk.BUFFER_USAGE_TRANSFER_DST = true)
  (Hstg_usage : has_flags stg_usage Vk.BUFFER_USAGE_TRANSFER_SRC = true)
  (Hsize : 0 < size_of_T) :
  (stg_len <= dst_len ->
   write_from_staging dst stg command_buffer fence queue =
   Ret (record_submit_commandbuffer queue command_buffer fence [] [] []
          (fun _ => [CmdCopyBuffer stg_buffer dst_buffer
                       [mkBufferCopy 0 0 (size_of_T * stg_len)]])))
  /\ (dst_len < stg_len ->
      is_panic (write_from_staging dst stg command_buffer fence queue) = true).
Proof.
  apply buffer_new_fields in Hdst as (-> & _).
  apply buffer_new_fields in Hstg as (-> & _).
  unfold write_from_staging. simpl. rewrite Hdst_usage, Hstg_usage. simpl. split.
  - intros Hle.
    replace (size_of_T * stg_len <=? size_of_T * dst_len) with true
      by (symmetry; apply Z.leb_le; apply Z.mul_le_mono_nonneg_l; lia).
    reflexivity.
  - intros Hlt.
    replace (size_of_T * stg_len <=? size_of_T * dst_len) with false
      by (symmetry; apply Z.leb_gt; apply Z.mul_lt_mono_pos_l; lia).
    reflexivity.
Qed.

(** A vertex buffer in device-local memory filled from a host-visible staging
    buffer of the same three [u32]s. *)
Lemma buffer_new_write_from_staging_witness :
  exists dst dst_calls stg stg_calls,
    buffer_new 4 sample_memory_properties
      (Z.lor Vk.BUFFER_USAGE_VERTEX_BUFFER Vk.BUFFER_USAGE_TRANSFER_DST)
      Vk.MEMORY_PROPERTY_DEVICE_LOCAL 3 false 20 21 22 sample_memory_reqs
      = Ret (dst, dst_calls)
    /\ buffer_new 4 sample_memory_properties Vk.BUFFER_USAGE_TRANSFER_SRC
         (Z.lor Vk.MEMORY_PROPERTY_HOST_VISIBLE Vk.MEMORY_PROPERTY_HOST_COHERENT)
         3 true 30 31 32 sample_memory_reqs = Ret (stg, stg_calls)
    /\ write_from_staging dst stg 40 41 42 =
       Ret (record_submit_commandbuffer 42 40 41 [] [] []
              (fun _ => [CmdCopyBuffer 30 20 [mkBufferCopy 0 0 12]])).
Proof.
  destruct (buffer_new 4 sample_memory_properties
              (Z.lor Vk.BUFFER_USAGE_VERTEX_BUFFER Vk.BUFFER_USAGE_TRANSFER_DST)
              Vk.MEMORY_PROPERTY_DEVICE_LOCAL 3 false 20 21 22 sample_memory_reqs)
    as [[dst dst_calls]|msg] eqn:Hdst; [|vm_compute in Hdst; discriminate].
  destruct (buffer_new 4 sample_memory_properties Vk.BUFFER_USAGE_TRANSFER_SRC
              (Z.lor Vk.MEMORY_PROPERTY_HOST_VISIBLE Vk.MEMORY_PROPERTY_HOST_COHERENT)
              3 true 30 31 32 sample_memory_reqs)
    as [[stg stg_calls]|msg] eqn:Hstg; [|vm_compute in Hstg; discriminate].
  exists dst, dst_calls, stg, stg_calls.
  split; [reflexivity|]. split; [reflexivity|].
  exact (proj1 (buffer_new_write_from_staging 4 sample_memory_properties _ _ 3 false
                  20 21 22 sample_memory_reqs dst dst_calls _ _ 3 true 30 31 32
                  sample_memory_reqs stg stg_calls 40 41 42 Hdst Hstg
                  eq_refl eq_refl ltac:(lia)) ltac:(lia)).
Defined.


(** ** Frame loop and submission sequences *)

(** The submission protocol, as used by the callers below. *)
Lemma record_submit_commandbuffer_exec (s s' : FenceState)
  (queue cb fence : Z) (wait_mask waits signals : list Z) (fn : Z -> list DeviceCmd)
  (tr : list (vk_call * FenceState))
  (Hok : fences_ok s)
  (Hex : exec s (record_submit_commandbuffer queue cb fence wait_mask waits signals fn)
              tr s') :
  map fst tr =
    [WaitForFences [fence]; ResetFences [fence];
     ResetCommandBuffer cb Vk.COMMAND_BUFFER_RESET_RELEASE_RESOURCES;
     BeginCommandBuffer cb Vk.COMMAND_BUFFER_USAGE_ONE_TIME_SUBMIT]
    ++ map (Record cb) (fn cb)
    ++ [EndCommandBuffer cb; QueueSubmit queue waits wait_mask [cb] signals fence]
  /\ (forall c st, In (c, st) tr -> touches_cb cb c = true -> pending st fence = false)
  /\ fences_ok s'.
Proof.
  split; [apply exec_trace_calls in Hex; exact Hex|].
  rewrite record_submit_commandbuffer_shape in Hex.
  set (mid := [ResetCommandBuffer cb Vk.COMMAND_BUFFER_RESET_RELEASE_RESOURCES;
               BeginCommandBuffer cb Vk.COMMAND_BUFFER_USAGE_ONE_TIME_SUBMIT]
              ++ map (Record cb) (fn cb) ++ [EndCommandBuffer cb]) in Hex.
  assert (Hmid : forallb no_submit mid = true).
  { unfold mid. rewrite !forallb_app. simpl. clear.
    induction (fn cb) as [|x l IH]; [reflexivity | exact IH]. }
  (* wait for the fence *)
  destruct (exec_app _ _ _ _ Hex _ _ eq_refl) as (trW & tr1 & sW & HW & Hrest & ->).
  destruct (exec_single _ _ _ _ HW) as (w0 & w1 & Hw0 & Hw & Hw1 & ->).
  assert (Hok_w0 : fences_ok w0) by (eapply exec_fences_ok; eauto).
  simpl in Hw. destruct (signaled w0 fence) eqn:Hsig; [|discriminate].
  injection Hw as <-.
  assert (Hp_w0 : pending w0 fence = false).
  { destruct (pending w0 fence) eqn:E; [|reflexivity]. apply Hok_w0 in E. congruence. }
  destruct (exec_quiet fence _ _ _ _ Hw1 eq_refl Hp_w0) as (Hp_sW & _ & _).
  assert (Hok_sW : fences_ok sW) by (eapply exec_fences_ok; eauto).
  (* reset the fence *)
  destruct (exec_app _ _ _ _ Hrest _ _ eq_refl) as (trR & tr2 & sR & HR & Hrest2 & ->).
  destruct (exec_single _ _ _ _ HR) as (r0 & r1 & Hr0 & Hr & Hr1 & ->).
  destruct (exec_quiet fence _ _ _ _ Hr0 eq_refl Hp_sW) as (Hp_r0 & _ & _).
  simpl in Hr. injection Hr as <-.
  assert (Hsig_r1 : signaled {| signaled := fun x => if existsb (Z.eqb x) [fence]
                                                   then false else signaled r0 x;
                                pending := pending r0 |} fence = false).
  { simpl. rewrite Z.eqb_refl. reflexivity. }
  destruct (exec_quiet fence _ _ _ _ Hr1 eq_refl Hp_r0) as (Hp_sR & Hs_sR & _).
  specialize (Hs_sR Hsig_r1).
  assert (Hok_sR : fences_ok sR) by (eapply exec_fences_ok; [exact HR | reflexivity | exact Hok_sW]).
  (* reset, begin, record, end *)
  destruct (exec_app _ _ _ _ Hrest2 _ _ eq_refl) as (trM & trS & sM & HM & HS & ->).
  destruct (exec_quiet fence _ _ _ _ HM Hmid Hp_sR) as (Hp_sM & Hs_sM & Hin_mid).
  specialize (Hs_sM Hs_sR).
  assert (Hok_sM : fences_ok sM) by (eapply exec_fences_ok; eauto).
  (* submit *)
  destruct (exec_single _ _ _ _ HS) as (q0 & q1 & Hq0 & Hq & Hq1 & ->).
  destruct (exec_quiet fence _ _ _ _ Hq0 eq_refl Hp_sM) as (Hp_q0 & Hs_q0' & _).
  specialize (Hs_q0' Hs_sM).
  assert (Hok_q0 : fences_ok q0) by (eapply exec_fences_ok; eauto).
  simpl in Hq. injection Hq as <-.
  split.
  - intros c st Hin Htouch.
    rewrite !in_app_iff in Hin. simpl in Hin.
    destruct Hin as [[Heq|[]]|[[Heq|[]]|[Hin|[Heq|[]]]]];
      try (injection Heq as <- <-; discriminate).
    apply Hin_mid with c. exact Hin.
  - eapply exec_fences_ok; [exact Hq1 | reflexivity |].
    intros g. simpl. unfold upd. destruct (g =? fence) eqn:E.
    + intros _. apply Z.eqb_eq in E. subst g. exact Hs_q0'.
    + apply Hok_q0.
Qed.

Lemma draw_frame_ret (r : Renderer) (acquire_code acquired_index present_code : Z)
  (calls : list vk_call) :
  draw_frame r acquire_code acquired_index present_code = Ret calls ->
  (acquire_code = VkResult.SUCCESS \/ acquire_code = VkResult.SUBOPTIMAL_KHR)
  /\ (present_code = VkResult.SUCCESS \/ present_code = VkResult.SUBOPTIMAL_KHR)
  /\ exists color_view,
       nth_error (present_image_views r) (Z.to_nat acquired_index) = Some color_view
       /\ calls =
          [AcquireNextImage (swapchain r) u64_max (present_complete_semaphore r) 0]
          ++ record_submit_commandbuffer (present_queue r) (draw_command_buffer r)
               (draw_commands_reuse_fence r)
               [Vk.PIPELINE_STAGE_COLOR_ATTACHMENT_OUTPUT]
               [present_complete_semaphore r] [rendering_complete_semaphore r]
               (fun _ => [CmdBeginRendering color_view (depth_image_view r);
                          CmdSetScissor 0 (scissors r);
                          CmdBindVertexBuffers 0 [vertex_input_buffer r] [0];
                          CmdBindIndexBuffer (index_buffer r) 0 Vk.INDEX_TYPE_UINT32;
                          CmdDrawIndexed INDICES_len 1 0 0 1;
                          CmdEndRendering])
          ++ [QueuePresent (present_queue r) [rendering_complete_semaphore r]
                [swapchain r] [acquired_index]].
Proof.
  unfold draw_frame, ash_acquire_next_image, ash_queue_present.
  assert (Hpres : forall (x : bool + Z) (l : list vk_call),
            match x with inr _ => Panic "Swapchain loader failed to present"
                       | inl _ => Ret l end = Ret calls ->
            x = (if present_code =? VkResult.SUCCESS then inl false
                 else if present_code =? VkResult.SUBOPTIMAL_KHR then inl true
                 else inr present_code) ->
            (present_code = VkResult.SUCCESS \/ present_code = VkResult.SUBOPTIMAL_KHR)
            /\ l = calls).
  { intros x l H ->.
    destruct (present_code =? VkResult.SUCCESS) eqn:E3;
      [apply Z.eqb_eq in E3; injection H as <-; auto|].
    destruct (present_code =? VkResult.SUBOPTIMAL_KHR) eqn:E4;
      [apply Z.eqb_eq in E4; injection H as <-; auto | discriminate]. }
  intros H.
  destruct (acquire_code =? VkResult.SUCCESS) eqn:E1;
    [|destruct (acquire_code =? VkResult.SUBOPTIMAL_KHR) eqn:E2; [|discriminate]];
    destruct (nth_error (present_image_views r) (Z.to_nat acquired_index))
      as [color_view|] eqn:Hview; try discriminate;
    destruct (Hpres _ _ H eq_refl) as [Hp <-];
    [apply Z.eqb_eq in E1 | apply Z.eqb_eq in E2];
    (split; [auto|]); (split; [exact Hp|]); exists color_view; (split; [reflexivity|]);
    reflexivity.
Qed.

(** When the acquire succeeds (also when suboptimal) but names an image past
    the end of the present image views, [draw_frame] panics on the index. *)
Theorem draw_frame_image_index_out_of_range (r : Renderer)
  (acquire_code acquired_index present_code : Z)
  (Hacq : acquire_code = VkResult.SUCCESS \/ acquire_code = VkResult.SUBOPTIMAL_KHR)
  (Hidx : (List.length (present_image_views r) <= Z.to_nat acquired_index)%nat) :
  draw_frame r acquire_code acquired_index present_code = Panic "index out of bounds".
Proof.
  unfold draw_frame, ash_acquire_next_image.
  apply nth_error_None in Hidx.
  destruct Hacq as [-> | ->]; simpl; rewrite Hidx; reflexivity.
Qed.

Lemma draw_frame_image_index_out_of_range_witness :
  draw_frame sample_renderer VkResult.SUCCESS 3 VkResult.SUCCESS
    = Panic "index out of bounds".
Proof.
  apply draw_frame_image_index_out_of_range; [left; reflexivity | simpl; lia].
Defined.

(** After a good acquire of an existing image, any present result other than
    SUCCESS and SUBOPTIMAL_KHR (out-of-date included) makes [draw_frame]
    panic with "Swapchain loader failed to present". *)
Theorem draw_frame_present_failure_panics (r : Renderer)
  (acquire_code acquired_index present_code color_view : Z)
  (Hacq : acquire_code = VkResult.SUCCESS \/ acquire_code = VkResult.SUBOPTIMAL_KHR)
  (Hview : nth_error (present_image_views r) (Z.to_nat acquired_index) = Some color_view)
  (Hsuccess : present_code <> VkResult.SUCCESS)
  (Hsuboptimal : present_code <> VkResult.SUBOPTIMAL_KHR) :
  draw_frame r acquire_code acquired_index present_code
    = Panic "Swapchain loader failed to present".
Proof.
  unfold draw_frame, ash_acquire_next_image, ash_queue_present.
  apply Z.eqb_neq in Hsuccess, Hsuboptimal.
  destruct Hacq as [-> | ->]; simpl; rewrite Hview, Hsuccess, Hsuboptimal; reflexivity.
Qed.

Lemma draw_frame_present_failure_panics_witness :
  draw_frame sample_renderer VkResult.SUCCESS 1 VkResult.ERROR_OUT_OF_DATE_KHR
    = Panic "Swapchain loader failed to present".
Proof.
  apply (draw_frame_present_failure_panics sample_renderer _ _ _ 21);
    [left; reflexivity | reflexivity | discriminate | discriminate].
Defined.

(** [draw_frame] completes only when the acquire and the present both return
    SUCCESS or SUBOPTIMAL_KHR and the acquired index names a present image
    view.  Its calls are then: the acquire, which signals the present-complete
    semaphore; exactly one queue submission, which waits on that semaphore at
    the color-attachment-output stage and signals the rendering-complete
    semaphore; and last the present of the acquired image, which waits on the
    rendering-complete semaphore. *)
Theorem draw_frame_semaphore_chain (r : Renderer)
  (acquire_code acquired_index present_code : Z) (calls : list vk_call)
  (Hrun : draw_frame r acquire_code acquired_index present_code = Ret calls) :
  (acquire_code = VkResult.SUCCESS \/ acquire_code = VkResult.SUBOPTIMAL_KHR)
  /\ (present_code = VkResult.SUCCESS \/ present_code = VkResult.SUBOPTIMAL_KHR)
  /\ (Z.to_nat acquired_index < List.length (present_image_views r))%nat
  /\ exists body,
       calls = AcquireNextImage (swapchain r) u64_max (present_complete_semaphore r) 0
               :: body
               ++ [QueueSubmit (present_queue r) [present_complete_semaphore r]
                     [Vk.PIPELINE_STAGE_COLOR_ATTACHMENT_OUTPUT] [draw_command_buffer r]
                     [rendering_complete_semaphore r] (draw_commands_reuse_fence r);
                   QueuePresent (present_queue r) [rendering_complete_semaphore r]
                     [swapchain r] [acquired_index]]
       /\ forallb no_submit body = true.
Proof.
  apply draw_frame_ret in Hrun as (Ha & Hp & color_view & Hview & ->).
  split; [exact Ha|]. split; [exact Hp|]. split.
  - apply nth_error_Some. rewrite Hview. discriminate.
  - exists ([WaitForFences [draw_commands_reuse_fence r];
              ResetFences [draw_commands_reuse_fence r];
              ResetCommandBuffer (draw_command_buffer r)
                Vk.COMMAND_BUFFER_RESET_RELEASE_RESOURCES;
              BeginCommandBuffer (draw_command_buffer r)
                Vk.COMMAND_BUFFER_USAGE_ONE_TIME_SUBMIT]
             ++ map (Record (draw_command_buffer r))
                  [CmdBeginRendering color_view (depth_image_view r);
                   CmdSetScissor 0 (scissors r);
                   CmdBindVertexBuffers 0 [vertex_input_buffer r] [0];
                   CmdBindIndexBuffer (index_buffer r) 0 Vk.INDEX_TYPE_UINT32;
                   CmdDrawIndexed INDICES_len 1 0 0 1;
                   CmdEndRendering]
             ++ [EndCommandBuffer (draw_command_buffer r)]).
    split; reflexivity.
Qed.

Lemma draw_frame_semaphore_chain_witness :
  exists calls, draw_frame sample_renderer VkResult.SUBOPTIMAL_KHR 2 VkResult.SUCCESS = Ret calls
    /\ (2 < List.length (present_image_views sample_renderer))%nat.
Proof.
  destruct (draw_frame sample_renderer VkResult.SUBOPTIMAL_KHR 2 VkResult.SUCCESS)
    as [calls|msg] eqn:Hrun; [|discriminate].
  exists calls. split; [reflexivity|].
  exact (proj1 (proj2 (proj2 (draw_frame_semaphore_chain _ _ _ _ _ Hrun)))).
Defined.

(** Executing the calls of a completed [draw_frame] from consistent fences,
    with the GPU free to finish work at any point: every call that resets or
    records the draw command buffer is issued while no submission guarded by
    the draw fence is in flight, and the fences are left consistent for the
    next frame. *)
Theorem draw_frame_exec_protocol (r : Renderer)
  (acquire_code acquired_index present_code : Z) (calls : list vk_call)
  (s s' : FenceState) (tr : list (vk_call * FenceState))
  (Hrun : draw_frame r acquire_code acquired_index present_code = Ret calls)
  (Hok : fences_ok s) (Hex : exec s calls tr s') :
  (forall c st, In (c, st) tr -> touches_cb (draw_command_buffer r) c = true ->
                pending st (draw_commands_reuse_fence r) = false)
  /\ fences_ok s'.
Proof.
  apply draw_frame_ret in Hrun as (_ & _ & color_view & _ & ->).
  destruct (exec_app _ _ _ _ Hex _ _ eq_refl) as (trA & tr1 & sA & HA & Hrest & ->).
  destruct (exec_app _ _ _ _ Hrest _ _ eq_refl) as (trS & trP & sS & HS & HP & ->).
  assert (Hok_A : fences_ok sA) by (eapply exec_fences_ok; [exact HA | reflexivity | exact Hok]).
  destruct (record_submit_commandbuffer_exec _ _ _ _ _ _ _ _ _ _ Hok_A HS)
    as (_ & Htouch & Hok_S).
  destruct (exec_single _ _ _ _ HA) as (a0 & a1 & _ & _ & _ & ->).
  destruct (exec_single _ _ _ _ HP) as (p0 & p1 & _ & _ & _ & ->).
  split.
  - intros c st Hin Hc. rewrite !in_app_iff in Hin.
    destruct Hin as [[Heq|[]]|[Hin|[Heq|[]]]];
      [injection Heq as <- <-; discriminate | | injection Heq as <- <-; discriminate].
    exact (Htouch c st Hin Hc).
  - eapply exec_fences_ok; [exact HP | reflexivity | exact Hok_S].
Qed.

Lemma draw_frame_exec_protocol_witness :
  exists calls tr s',
    draw_frame sample_renderer VkResult.SUCCESS 0 VkResult.SUCCESS = Ret calls
    /\ exec initial_fences calls tr s' /\ fences_ok s'.
Proof.
  destruct (draw_frame sample_renderer VkResult.SUCCESS 0 VkResult.SUCCESS)
    as [calls|msg] eqn:Hrun; [|discriminate].
  assert (Hok : fences_ok initial_fences) by (intros f Hf; discriminate).
  assert (Hex : exists tr s', exec initial_fences calls tr s').
  { injection Hrun as <-. do 2 eexists. repeat (eapply exec_host; [reflexivity|]).
    apply exec_nil. }
  destruct Hex as (tr & s' & Hex).
  exists calls, tr, s'. split; [reflexivity|]. split; [exact Hex|].
  exact (proj2 (draw_frame_exec_protocol _ _ _ _ _ _ _ _ Hrun Hok Hex)).
Defined.

(** Any sequence of [record_submit_commandbuffer] calls, on any command
    buffers and fences, executed from consistent fences with the GPU free to
    finish work at any point: the trace splits into one segment per call, each
    issuing that call's protocol, and within each segment every call that
    resets or records its command buffer is issued while no submission guarded
    by its fence is in flight; the fences end consistent. *)
Theorem record_submit_commandbuffer_sequence (subs : list SubmitArgs)
  (s s' : FenceState) (tr : list (vk_call * FenceState))
  (Hok : fences_ok s) (Hex : exec s (flat_map submit_calls subs) tr s') :
  fences_ok s'
  /\ exists trs,
       tr = List.concat trs
       /\ Forall2 (fun a tr_a =>
                     map fst tr_a = submit_calls a
                     /\ forall c st, In (c, st) tr_a ->
                          touches_cb (sa_command_buffer a) c = true ->
                          pending st (sa_fence a) = false) subs trs.
Proof.
  revert s tr Hok Hex. induction subs as [|a subs IH]; intros s tr Hok Hex.
  - simpl in Hex. split; [eapply exec_fences_ok; [exact Hex | reflexivity | exact Hok]|].
    exists []. split; [|constructor].
    apply exec_trace_calls in Hex. destruct tr; [reflexivity | discriminate].
  - change (flat_map submit_calls (a :: subs))
      with (submit_calls a ++ flat_map submit_calls subs) in Hex.
    destruct (exec_app _ _ _ _ Hex _ _ eq_refl) as (tr1 & tr2 & sm & H1 & H2 & ->).
    pose proof H1 as H1'. apply exec_trace_calls in H1'.
    unfold submit_calls in H1.
    destruct (record_submit_commandbuffer_exec _ _ _ _ _ _ _ _ _ _ Hok H1)
      as (_ & Htouch & Hok_m).
    destruct (IH _ _ Hok_m H2) as (Hok' & trs & -> & Hall).
    split; [exact Hok'|]. exists (tr1 :: trs). split; [reflexivity|].
    constructor; [split; [exact H1' | exact Htouch] | exact Hall].
Qed.

(** The setup submission of [Renderer::new] (the depth-image layout
    transition, no semaphores) followed by a draw submission, from the fences
    as [CommandBufferComponents::new] creates them (signaled). *)
Lemma record_submit_commandbuffer_sequence_witness :
  exists tr s',
    exec initial_fences
      (flat_map submit_calls
         [mkSubmitArgs 1 2 3 [] [] [] (fun _ => []);
          mkSubmitArgs 1 4 5 [Vk.PIPELINE_STAGE_COLOR_ATTACHMENT_OUTPUT] [6] [7]
            (fun _ => [CmdEndRendering])]) tr s'
    /\ fences_ok s'.
Proof.
  assert (Hok : fences_ok initial_fences) by (intros f Hf; discriminate).
  assert (Hex : exists tr s',
    exec initial_fences
      (flat_map submit_calls
         [mkSubmitArgs 1 2 3 [] [] [] (fun _ => []);
          mkSubmitArgs 1 4 5 [Vk.PIPELINE_STAGE_COLOR_ATTACHMENT_OUTPUT] [6] [7]
            (fun _ => [CmdEndRendering])]) tr s').
  { do 2 eexists. simpl. repeat (eapply exec_host; [reflexivity|]). apply exec_nil. }
  destruct Hex as (tr & s' & Hex).
  exists tr, s'. split; [exact Hex|].
  exact (proj1 (record_submit_commandbuffer_sequence _ _ _ _ Hok Hex)).
Defined.

(** ** Physical-device selection *)

Lemma find_queue_family_some (families : list QueueFamilyInfo) : forall k i,
  find_queue_family k families = Ret (Some i) ->
  k <= i
  /\ (exists qf, nth_error families (Z.to_nat (i - k)) = Some qf /\ family_qualifies qf)
  /\ (forall j qf, k <= j < i -> nth_error families (Z.to_nat (j - k)) = Some qf ->
                   ~ family_qualifies qf).
Proof.
  induction families as [|info rest IH]; intros k i; simpl; [discriminate|].
  destruct (has_flags (queue_flags info) QueueFlags.GRAPHICS) eqn:Hg;
    [destruct (surface_support info) as [[|]|m] eqn:Hs | ]; try discriminate.
  - intros H. injection H as <-. rewrite Z.sub_diag. simpl.
    split; [lia|]. split; [exists info; split; [reflexivity | split; assumption]|].
    intros j qf Hj. lia.
  - intros H. destruct (IH _ _ H) as (Hle & (qf & Hqf & Hq) & Hbefore).
    split; [lia|]. split.
    + exists qf. split; [|exact Hq].
      replace (Z.to_nat (i - k)) with (S (Z.to_nat (i - (k + 1)))) by lia. exact Hqf.
    + intros j qf' Hj Hn. destruct (Z.eq_dec j k) as [->|Hne].
      * rewrite Z.sub_diag in Hn. simpl in Hn. injection Hn as <-.
        intros [_ Hsup]. congruence.
      * replace (Z.to_nat (j - k)) with (S (Z.to_nat (j - (k + 1)))) in Hn by lia.
        apply (Hbefore j); [lia | exact Hn].
  - intros H. destruct (IH _ _ H) as (Hle & (qf & Hqf & Hq) & Hbefore).
    split; [lia|]. split.
    + exists qf. split; [|exact Hq].
      replace (Z.to_nat (i - k)) with (S (Z.to_nat (i - (k + 1)))) by lia. exact Hqf.
    + intros j qf' Hj Hn. destruct (Z.eq_dec j k) as [->|Hne].
      * rewrite Z.sub_diag in Hn. simpl in Hn. injection Hn as <-.
        intros [Hg' _]. congruence.
      * replace (Z.to_nat (j - k)) with (S (Z.to_nat (j - (k + 1)))) in Hn by lia.
        apply (Hbefore j); [lia | exact Hn].
Qed.

Lemma find_queue_family_none (families : list QueueFamilyInfo) : forall k,
  find_queue_family k families = Ret None -> forall qf, In qf families -> ~ family_qualifies qf.
Proof.
  induction families as [|info rest IH]; intros k; simpl; [intros _ qf []|].
  destruct (has_flags (queue_flags info) QueueFlags.GRAPHICS) eqn:Hg;
    [destruct (surface_support info) as [[|]|m] eqn:Hs | ]; try discriminate;
    intros H qf [<-|Hin]; try (apply (IH _ H); exact Hin);
    intros [Hg' Hs']; congruence.
Qed.







Lemma max_by_key_supported_some (devices : list PhysicalDeviceInfo) : forall best index pd,
  max_by_key_supported best devices = Ret (Some (index, pd)) ->
  exists key,
    (forall bk x, best = Some (bk, x) -> bk <= key)
    /\ (forall pd' k', In pd' devices -> device_supported pd' -> device_score pd' = Ret k' ->
                       k' <= key)
    /\ ((best = Some (key, (index, pd))
         /\ forall pd' k', In pd' devices -> device_supported pd' ->
                           device_score pd' = Ret k' -> k' < key)
        \/ exists pre post,
             devices = pre ++ pd :: post
             /\ find_queue_family 0 (queue_families pd) = Ret (Some index)
             /\ device_score pd = Ret key
             /\ forall pd' k', In pd' post -> device_supported pd' ->
                               device_score pd' = Ret k' -> k' < key).
Proof.
  induction devices as [|pd0 rest IH]; intros best index pd; simpl.
  - destruct best as [[bk [i p]]|]; [|discriminate]. simpl. intros H.
    injection H as <- <-. exists bk.
    split; [intros bk' x Hb; injection Hb as <- _; lia|].
    split; [intros pd' k' []|]. left. split; [reflexivity | intros pd' k' []].
  - destruct (find_queue_family 0 (queue_families pd0)) as [[index0|]|m] eqn:Hf;
      [destruct (device_score pd0) as [k0|m] eqn:Hk0; [|discriminate] | | discriminate].
    + intros H.
      set (best' := match best with
                    | Some (best_key, x) =>
                        if best_key <=? k0 then (k0, (index0, pd0)) else (best_key, x)
                    | None => (k0, (index0, pd0))
                    end) in H.
      destruct (IH _ _ _ H) as (key & Hb & Hall & Hcase).
      assert (Hk0_le : k0 <= fst best').
      { unfold best'. destruct best as [[bk x]|]; simpl; [|lia].
        destruct (bk <=? k0) eqn:E; simpl; [lia | apply Z.leb_gt in E; lia]. }
      assert (Hb' : fst best' <= key) by (apply (Hb _ (snd best')); destruct best'; reflexivity).
      exists key. split.
      * intros bk x Hbest. subst best. unfold best' in Hb'.
        destruct (bk <=? k0) eqn:E; simpl in Hb'; [apply Z.leb_le in E; lia | exact Hb'].
      * split.
        -- intros pd' k' [<-|Hin] Hs Hk'; [rewrite Hk0 in Hk'; injection Hk' as <-; lia|].
           exact (Hall pd' k' Hin Hs Hk').
        -- destruct Hcase as [[Hbest Hlt] | (pre & post & -> & Hfi & Hki & Hpost)].
           ++ unfold best' in Hbest.
              destruct best as [[bk x]|].
              ** destruct (bk <=? k0) eqn:E.
                 --- injection Hbest as <- <- <-. right. exists [], rest.
                     split; [reflexivity|]. split; [exact Hf|]. split; [exact Hk0|].
                     exact Hlt.
                 --- injection Hbest as <- <-. left. split; [reflexivity|].
                     apply Z.leb_gt in E.
                     intros pd' k' [<-|Hin] Hs Hk';
                       [rewrite Hk0 in Hk'; injection Hk' as <-; lia|].
                     exact (Hlt pd' k' Hin Hs Hk').
              ** injection Hbest as <- <- <-. right. exists [], rest.
                 split; [reflexivity|]. split; [exact Hf|]. split; [exact Hk0|]. exact Hlt.
           ++ right. exists (pd0 :: pre), post. split; [reflexivity|].
              split; [exact Hfi|]. split; [exact Hki|]. exact Hpost.
    + intros H. destruct (IH _ _ _ H) as (key & Hb & Hall & Hcase).
      assert (Hns : ~ device_supported pd0).
      { intros (qf & Hin & Hq). exact (find_queue_family_none _ _ Hf qf Hin Hq). }
      exists key. split; [exact Hb|]. split.
      * intros pd' k' [<-|Hin] Hs Hk'; [contradiction | exact (Hall pd' k' Hin Hs Hk')].
      * destruct Hcase as [[Hbest Hlt] | (pre & post & -> & Hfi & Hki & Hpost)].
        -- left. split; [exact Hbest|].
           intros pd' k' [<-|Hin] Hs Hk'; [contradiction | exact (Hlt pd' k' Hin Hs Hk')].
        -- right. exists (pd0 :: pre), post. split; [reflexivity|].
           split; [exact Hfi|]. split; [exact Hki|]. exact Hpost.
Qed.

(** The device and queue family [Renderer::new] selects: the queue family is
    the first one of the device that has GRAPHICS and supports the surface,
    and the device has the highest score among the supported devices, being
    the last one with that score (devices before it score no more, devices
    after it score less). *)
Theorem select_physical_device_best (devices : list PhysicalDeviceInfo)
  (index : Z) (pd : PhysicalDeviceInfo)
  (Hsel : select_physical_device devices = Ret (index, pd)) :
  exists pre post key,
    devices = pre ++ pd :: post
    /\ device_score pd = Ret key
    /\ 0 <= index
    /\ (exists qf, nth_error (queue_families pd) (Z.to_nat index) = Some qf
                   /\ family_qualifies qf)
    /\ (forall j qf, 0 <= j < index -> nth_error (queue_families pd) (Z.to_nat j) = Some qf ->
                     ~ family_qualifies qf)
    /\ (forall pd' k', In pd' pre -> device_supported pd' -> device_score pd' = Ret k' ->
                       k' <= key)
    /\ (forall pd' k', In pd' post -> device_supported pd' -> device_score pd' = Ret k' ->
                       k' < key).
Proof.
  unfold select_physical_device in Hsel.
  destruct (max_by_key_supported None devices) as [[[i p]|]|m] eqn:Hr; try discriminate.
  injection Hsel as -> ->.
  destruct (max_by_key_supported_some _ _ _ _ Hr) as (key & _ & Hall & Hcase).
  destruct Hcase as [[Hbest _] | (pre & post & Hdev & Hf & Hk & Hpost)]; [discriminate|].
  destruct (find_queue_family_some _ _ _ Hf) as (Hle & (qf & Hqf & Hq) & Hbefore).
  exists pre, post, key.
  split; [exact Hdev|]. split; [exact Hk|]. split; [exact Hle|].
  split; [exists qf; rewrite Z.sub_0_r in Hqf; split; [exact Hqf | exact Hq]|].
  split; [intros j qf' Hj Hn; apply (Hbefore j); [lia | rewrite Z.sub_0_r; exact Hn]|].
  split; [|exact Hpost].
  intros pd' k' Hin Hs Hk'. apply (Hall pd' k'); [|exact Hs | exact Hk'].
  rewrite Hdev. apply in_or_app. left. exact Hin.
Qed.

(** On the sample devices the second discrete GPU is chosen, with its queue
    family 0: it ties with the first discrete GPU and comes after it. *)
Lemma select_physical_device_best_witness :
  select_physical_device sample_physical_devices
    = Ret (0, mkPhysicalDeviceInfo 4 [mkQueueFamilyInfo 7 (Ret true)]
                PhysicalDeviceType.DISCRETE_GPU 16384)
  /\ exists pre post key,
       sample_physical_devices
         = pre ++ mkPhysicalDeviceInfo 4 [mkQueueFamilyInfo 7 (Ret true)]
                    PhysicalDeviceType.DISCRETE_GPU 16384 :: post
       /\ device_score (mkPhysicalDeviceInfo 4 [mkQueueFamilyInfo 7 (Ret true)]
                          PhysicalDeviceType.DISCRETE_GPU 16384) = Ret key.
Proof.
  assert (Hsel : select_physical_device sample_physical_devices
    = Ret (0, mkPhysicalDeviceInfo 4 [mkQueueFamilyInfo 7 (Ret true)]
                PhysicalDeviceType.DISCRETE_GPU 16384)) by reflexivity.
  split; [exact Hsel|].
  destruct (select_physical_device_best _ _ _ Hsel) as (pre & post & key & Hd & Hk & _).
  exists pre, post, key. split; [exact Hd | exact Hk].
Defined.

(** ** Descriptor set: teardown after construction *)

Lemma write_descriptor_sets_grows i sets uniform_buffers :
  grows (write_descriptor_sets i sets uniform_buffers).
Proof.
  revert i. induction sets as [|s rest IH]; intros i; simpl; solve_grows.
Qed.

Lemma create_uniform_buffer_maps props reqs d b m p d1 :
  create_uniform_buffer props reqs d = Ret ((b, m, p), d1) ->
  In (MapMemory m 0 (req_size reqs)) (calls d1).
Proof.
  unfold create_uniform_buffer. intros H.
  apply mbind_ret in H as (ub & e1 & _ & H).
  apply mbind_ret in H as (t1 & e2 & _ & H).
  apply mbind_ret in H as (t2 & e3 & _ & H).
  apply mbind_ret in H as (mi & e4 & _ & H).
  apply mbind_ret in H as (mem & e5 & _ & H).
  apply mbind_ret in H as (t3 & e6 & _ & H).
  apply mbind_ret in H as (t4 & e7 & _ & H).
  apply mbind_ret in H as (ptr & e8 & _ & H).
  apply mbind_ret in H as (t5 & e9 & Hmap & H).
  unfold mret in H. injection H as _ <- _ <-.
  unfold emit in Hmap. injection Hmap as _ <-. simpl.
  apply in_or_app. right. left. reflexivity.
Qed.

Lemma uniform_loop_maps props reqs k : forall bufs mems maps d bufs' mems' maps' d',
  uniform_loop props reqs k bufs mems maps d = Ret ((bufs', mems', maps'), d') ->
  forall m, In m mems' -> In m mems \/ In (MapMemory m 0 (req_size reqs)) (calls d').
Proof.
  induction k as [|k IH]; simpl; intros bufs mems maps d bufs' mems' maps' d' H m Hm.
  - injection H as _ <- _ _. left. exact Hm.
  - apply mbind_ret in H as ([[b0 m0] p0] & d1 & Hc & H).
    destruct (IH _ _ _ _ _ _ _ _ H m Hm) as [Hin | Hin]; [|right; exact Hin].
    apply in_app_or in Hin as [Hin | [<- | []]]; [left; exact Hin|].
    right. apply create_uniform_buffer_maps in Hc.
    destruct (uniform_loop_grows props reqs k _ _ _ _ _ _ H) as [suf ->].
    apply in_or_app. left. exact Hc.
Qed.

Lemma descriptor_cleanup_loop_spec (memories : list Z) : forall bufs i,
  (i + List.length bufs <= List.length memories)%nat ->
  descriptor_cleanup_loop i bufs memories =
  Ret (flat_map (fun bm => [Call (UnmapMemory (snd bm)); Call (FreeMemory (snd bm));
                            Call (DestroyBuffer (fst bm))])
         (combine bufs (skipn i memories))).
Proof.
  induction bufs as [|b rest IH]; intros i Hlen; simpl; [reflexivity|].
  destruct (nth_error memories i) as [m|] eqn:Hm;
    [|apply nth_error_None in Hm; simpl in Hlen; lia].
  rewrite (IH (S i)) by (simpl in Hlen; lia).
  rewrite (skipn_nth_error_cons _ _ _ Hm). reflexivity.
Qed.

(** [DescriptorComponents::cleanup] on what [DescriptorComponents::new]
    built: it does not panic, destroys the pool and the layout, then for each
    uniform buffer unmaps and frees its memory and destroys the buffer, with
    as many buffers as memories; every memory it unmaps is one that [new]
    mapped; and the persistent mappings are dropped. *)
Theorem descriptor_components_cleanup_after_new
  (props : PhysicalDeviceMemoryProperties) (reqs : MemoryRequirements)
  (n : Z) (d d' : Dev) (comps : DescriptorComponents)
  (Hrun : descriptor_components_new props reqs n d = Ret (comps, d')) :
  descriptor_components_cleanup comps =
    Ret ([DestroyDescriptorPool (descriptor_pool comps);
          DestroyDescriptorSetLayout (descriptor_set_layout comps)]
         ++ flat_map (fun bm => [Call (UnmapMemory (snd bm)); Call (FreeMemory (snd bm));
                                 Call (DestroyBuffer (fst bm))])
              (combine (uniform_buffers comps) (uniform_buffer_memories comps)),
         mkDescriptorComponents (descriptor_pool comps) (descriptor_sets comps)
           (descriptor_set_layout comps) (uniform_buffers comps)
           (uniform_buffer_memories comps) None)
  /\ List.length (uniform_buffers comps) = List.length (uniform_buffer_memories comps)
  /\ (forall m, In m (uniform_buffer_memories comps) ->
                In (MapMemory m 0 (req_size reqs)) (calls d')).
Proof.
  unfold descriptor_components_new in Hrun.
  apply mbind_ret in Hrun as ([[ub um] mp] & d1 & Hloop & Hrest).
  apply mbind_ret in Hrest as (layout & d2 & Hl & Hrest).
  apply mbind_ret in Hrest as (t1 & d3 & He1 & Hrest).
  apply mbind_ret in Hrest as (pool & d4 & Hp & Hrest).
  apply mbind_ret in Hrest as (t2 & d5 & He2 & Hrest).
  apply mbind_ret in Hrest as (sets & d6 & Hs & Hrest).
  apply mbind_ret in Hrest as (t3 & d7 & He3 & Hrest).
  apply mbind_ret in Hrest as (t4 & d8 & Hw & Hrest).
  unfold mret in Hrest. injection Hrest as <- <-. simpl.
  assert (Hsuf : exists suf, calls d8 = calls d1 ++ suf).
  { destruct (grows_fresh _ _ _ Hl) as [s1 E1].
    destruct (grows_emit _ _ _ _ He1) as [s2 E2].
    destruct (grows_fresh _ _ _ Hp) as [s3 E3].
    destruct (grows_emit _ _ _ _ He2) as [s4 E4].
    destruct (fresh_many_grows _ _ _ _ Hs) as [s5 E5].
    destruct (grows_emit _ _ _ _ He3) as [s6 E6].
    destruct (write_descriptor_sets_grows _ _ _ _ _ _ Hw) as [s7 E7].
    exists (s1 ++ s2 ++ s3 ++ s4 ++ s5 ++ s6 ++ s7).
    rewrite E7, E6, E5, E4, E3, E2, E1, !app_assoc. reflexivity. }
  destruct (uniform_loop_lengths _ _ _ _ _ _ _ _ _ _ _ Hloop) as (L1 & L2 & _).
  simpl in L1, L2.
  split; [|split; [lia|]].
  - unfold descriptor_components_cleanup. simpl.
    rewrite descriptor_cleanup_loop_spec by lia. reflexivity.
  - intros m Hm. destruct Hsuf as [suf ->].
    destruct (uniform_loop_maps _ _ _ _ _ _ _ _ _ _ _ Hloop m Hm) as [[]|Hin].
    apply in_or_app. left. exact Hin.
Qed.

Lemma descriptor_components_cleanup_after_new_witness :
  exists comps d' cleanup_calls comps',
    descriptor_components_new sample_memory_properties sample_memory_reqs 3
      (mkDev 100 []) = Ret (comps, d')
    /\ descriptor_components_cleanup comps = Ret (cleanup_calls, comps')
    /\ List.length (uniform_buffers comps) = 3%nat.
Proof.
  destruct (descriptor_components_new sample_memory_properties sample_memory_reqs 3
              (mkDev 100 [])) as [[comps d']|msg] eqn:Hrun;
    [|vm_compute in Hrun; discriminate].
  destruct (descriptor_components_cleanup_after_new _ _ _ _ _ _ Hrun) as (Hc & _ & _).
  do 4 eexists. split; [reflexivity|]. split; [exact Hc|].
  vm_compute in Hrun. injection Hrun as <- _. reflexivity.
Defined.

(** ** Keyboard input and camera movement *)

(** A key press followed by its release leaves the controller as the release
    alone would, which is the controller as it was when no movement flag was
    set; a letter key and its arrow key act on the same flag. *)
Theorem keyboard_input_press_release {F} (c : CameraController F) (k : PhysicalKey) :
  keyboard_input (keyboard_input c k true) k false = keyboard_input c k false
  /\ (forward_pressed c = false -> backward_pressed c = false ->
      left_pressed c = false -> right_pressed c = false -> keyboard_input c k false = c)
  /\ (forall p, keyboard_input c (Code KeyW) p = keyboard_input c (Code ArrowUp) p
                /\ keyboard_input c (Code KeyS) p = keyboard_input c (Code ArrowDown) p
                /\ keyboard_input c (Code KeyA) p = keyboard_input c (Code ArrowLeft) p
                /\ keyboard_input c (Code KeyD) p = keyboard_input c (Code ArrowRight) p).
Proof.
  destruct c as [sp sens dx dy fp bp lp rp]. split; [|split].
  - destruct k as [[| | | | | | | |code]|]; reflexivity.
  - simpl. intros -> -> -> ->. destruct k as [[| | | | | | | |code]|]; reflexivity.
  - intros p. repeat split.
Qed.

Lemma keyboard_input_press_release_witness :
  keyboard_input (mkCameraController 1 1 0 0 false false false false) (Code KeyW) false
    = mkCameraController 1 1 0 0 false false false false.
Proof.
  apply (proj1 (proj2 (keyboard_input_press_release
                         (mkCameraController 1 1 0 0 false false false false) (Code KeyW))));
    reflexivity.
Defined.

(** With no movement key held, pressing and releasing any key and then
    running [update_camera] leaves the camera's position unchanged, whatever
    the mouse did, and turns it only by the controller's mouse deltas times
    the sensitivity ([theta] by the x delta, [phi] by the y delta). *)
Theorem update_camera_after_release_keeps_position {F : Type} `{FloatOps F}
  (c : CameraController F) (cam : Camera F) (k : PhysicalKey)
  (Hf : forward_pressed c = false) (Hb : backward_pressed c = false)
  (Hl : left_pressed c = false) (Hr : right_pressed c = false) :
  let cam' := snd (update_camera (keyboard_input (keyboard_input c k true) k false) cam) in
  position cam' = position cam
  /\ theta cam' = fadd (theta cam) (fmul (mouse_delta_x c) (mouse_sens c))
  /\ phi cam' = fadd (phi cam) (fmul (mouse_delta_y c) (mouse_sens c)).
Proof.
  destruct c as [sp sens dx dy fp bp lp rp]. simpl in Hf, Hb, Hl, Hr. subst.
  destruct k as [[| | | | | | | |code]|]; repeat split.
Qed.

Lemma update_camera_after_release_keeps_position_witness :
  position (snd (update_camera
                   (keyboard_input (keyboard_input (mkCameraController 1 1 5 7 false false false false)
                                                   (Code KeyW) true) (Code KeyW) false)
                   sample_camera))
  = position sample_camera.
Proof.
  exact (proj1 (update_camera_after_release_keeps_position
                 (mkCameraController 1 1 5 7 false false false false) sample_camera (Code KeyW)
                 eq_refl eq_refl eq_refl eq_refl)).
Defined.

(** ** Camera under the application's events *)

Section AppEvents.
Context {F : Type} `{FloatOps F}.

Lemma app_events_keep_position (events : list (AppEvent F)) : forall c cam,
  no_movement_flag c ->
  forallb (fun e => negb (presses_movement_key e)) events = true ->
  no_movement_flag (fst (fold_left app_event events (c, cam)))
  /\ position (snd (fold_left app_event events (c, cam))) = position cam.
Proof.
  induction events as [|e rest IH]; intros c cam Hc Hev; [split; [exact Hc|reflexivity]|].
  simpl in Hev. apply andb_prop in Hev as [He Hrest]. simpl.
  destruct c as [sp sens dx dy fp bp lp rp].
  destruct Hc as (Hf & Hb & Hl & Hr). simpl in Hf, Hb, Hl, Hr. subst.
  destruct e as [ddx ddy|k p| |]; simpl.
  - apply IH; [repeat split|exact Hrest].
  - apply IH; [|exact Hrest].
    destruct p, k as [[| | | | | | | |code]|]; simpl in He; try discriminate; repeat split.
  - destruct (IH (mkCameraController sp sens f_zero f_zero false false false false)
                 (mkCamera (position cam) (fadd (phi cam) (fmul dy sens))
                    (fadd (theta cam) (fmul dx sens)) (up cam) (fovy cam) (znear cam) (zfar cam)))
      as [IH1 IH2]; [repeat split|exact Hrest|].
    split; [exact IH1|exact IH2].
  - apply IH; [repeat split|exact Hrest].
Qed.

End AppEvents.

(** From [CameraController::new], as [App::resumed] builds it, any run of
    events in which no movement key (W, A, S, D or an arrow key) is pressed
    leaves the camera where it was and no movement flag set: mouse motion,
    redraws and key releases only turn the camera. *)
Theorem app_camera_moves_only_on_movement_keys {F : Type} `{FloatOps F}
  (speed mouse_sens : F) (cam : Camera F) (events : list (AppEvent F))
  (Hev : forallb (fun e => negb (presses_movement_key e)) events = true) :
  let st := fold_left app_event events (camera_controller_new speed mouse_sens, cam) in
  position (snd st) = position cam
  /\ forward_pressed (fst st) = false /\ backward_pressed (fst st) = false
  /\ left_pressed (fst st) = false /\ right_pressed (fst st) = false.
Proof.
  destruct (app_events_keep_position events (camera_controller_new speed mouse_sens) cam
              ltac:(repeat split) Hev) as [(Hf & Hb & Hl & Hr) Hpos].
  cbn zeta. repeat split; assumption.
Qed.

Lemma app_camera_moves_only_on_movement_keys_witness :
  forallb (fun e => negb (presses_movement_key e))
    [MouseMotion 3 4; KeyboardInput (Code KeyW) false; RedrawRequested;
     KeyboardInput (Code (OtherKeyCode 9)) true; RedrawRequested] = true
  /\ position (snd (fold_left app_event
       [MouseMotion 3 4; KeyboardInput (Code KeyW) false; RedrawRequested;
        KeyboardInput (Code (OtherKeyCode 9)) true; RedrawRequested]
       (camera_controller_new 1 1, sample_camera))) = position sample_camera.
Proof.
  split; [reflexivity|].
  exact (proj1 (app_camera_moves_only_on_movement_keys 1 1 sample_camera
    [MouseMotion 3 4; KeyboardInput (Code KeyW) false; RedrawRequested;
     KeyboardInput (Code (OtherKeyCode 9)) true; RedrawRequested] eq_refl)).
Defined.
